(** * Skilled agent: sandboxed tools, context window and turn loop

    A shallow embedding of [src/unnamed/part_000] (the current revision of
    [src/index.ts]): the input schemas and [execute] bodies of the three
    tools, the [prepareStep] hook, [streamAgentResponse] and the chat loop.

    JavaScript strings are modelled as [string] (sequences of 8-bit code
    units); every character the source tests for is ASCII. *)

From Stdlib Require Import ZArith Ascii String DecimalString Lia.
From stdpp Require Import base list sorting strings.

Open Scope string_scope.

(* ================================================================== *)
(** ** String primitives used by the source *)

(** [s.startsWith(p)] *)
Fixpoint startsWith (s p : string) : bool :=
  match p, s with
  | EmptyString, _ => true
  | String _ _, EmptyString => false
  | String c p', String d s' => Ascii.eqb c d && startsWith s' p'
  end.

(** [s.includes(sub)]: [sub] starts at some position of [s]. *)
Fixpoint includes (s sub : string) : bool :=
  startsWith s sub ||
  match s with
  | EmptyString => false
  | String _ s' => includes s' sub
  end.

(** [s.split(sep)] for a one-character separator. *)
Fixpoint split (sep : ascii) (s : string) : list string :=
  match s with
  | EmptyString => [EmptyString]
  | String c s' =>
      if Ascii.eqb c sep then EmptyString :: split sep s'
      else match split sep s' with
           | [] => [String c EmptyString]
           | x :: xs => String c x :: xs
           end
  end.

(** [path.replace(/\\/g, '/')] *)
Fixpoint normalizeSeparators (path : string) : string :=
  match path with
  | EmptyString => EmptyString
  | String c s' =>
      String (if Ascii.eqb c "\"%char then "/"%char else c)
             (normalizeSeparators s')
  end.

(** Case folding of one code unit, as the [i] flag of a regular expression
    does on ASCII letters. *)
Definition foldCase (c : ascii) : ascii :=
  let n := nat_of_ascii c in
  if (65 <=? n)%nat && (n <=? 90)%nat then ascii_of_nat (n + 32) else c.

Fixpoint eqb_ci (s t : string) : bool :=
  match s, t with
  | EmptyString, EmptyString => true
  | String c s', String d t' => Ascii.eqb (foldCase c) (foldCase d) && eqb_ci s' t'
  | _, _ => false
  end.

(** A match of [/lit$/i]: from some position on, the rest of [s] is [lit]
    up to case, and the input ends there. *)
Fixpoint matchesAtEnd_ci (s lit : string) : bool :=
  eqb_ci s lit ||
  match s with
  | EmptyString => false
  | String _ s' => matchesAtEnd_ci s' lit
  end.

(** [arr.join(sep)] *)
Fixpoint join (sep : string) (l : list string) : string :=
  match l with
  | [] => ""
  | [x] => x
  | x :: rest => x ++ sep ++ join sep rest
  end.

(** [String(n)] for an integer. *)
Definition numberToString (n : Z) : string :=
  NilZero.string_of_int (Z.to_int n).

(** JavaScript white space within the 8-bit range: TAB, LF, VT, FF, CR,
    SPACE and NBSP. *)
Definition isWhiteSpace (c : ascii) : bool :=
  let n := nat_of_ascii c in
  ((9 <=? n)%nat && (n <=? 13)%nat) || (n =? 32)%nat || (n =? 160)%nat.

Fixpoint trimStart (s : string) : string :=
  match s with
  | EmptyString => EmptyString
  | String c s' => if isWhiteSpace c then trimStart s' else s
  end.

Fixpoint trimEnd (s : string) : string :=
  match s with
  | EmptyString => EmptyString
  | String c s' =>
      match trimEnd s' with
      | EmptyString => if isWhiteSpace c then EmptyString else String c EmptyString
      | t => String c t
      end
  end.

(** [s.trim()] *)
Definition trim (s : string) : string := trimEnd (trimStart s).

(* ================================================================== *)
(** ** Input schemas *)

(** [SKILLS_PATH = `${import.meta.dir}/skills`]; [dir] is the directory of
    the module, known only at run time. *)
Definition SKILLS_PATH (dir : string) : string := dir ++ "/skills".

(** The [refine] predicate of [runScriptTool.inputSchema.scriptPath]. *)
Definition scriptPath_refine (dir path : string) : bool :=
  let normalized := normalizeSeparators path in
  startsWith normalized (SKILLS_PATH dir) &&
  negb (includes normalized "../") &&
  (3 <=? length (split "/"%char normalized))%nat.

Definition binaryExtensions : list string :=
  ["png"; "jpg"; "jpeg"; "gif"; "bmp"; "webp"; "avif"; "pdf"].

(** [normalized.match(/\.(png|jpg|jpeg|gif|bmp|webp|avif|pdf)$/i)] is not
    [null]. *)
Definition matchesBinaryExtension (normalized : string) : bool :=
  existsb (fun ext => matchesAtEnd_ci normalized ("." ++ ext)) binaryExtensions.

(** The [refine] predicate of [readFileTool.inputSchema.filePath]. *)
Definition filePath_refine (path : string) : bool :=
  let normalized := normalizeSeparators path in
  negb (includes normalized "/.env") &&
  negb (includes normalized "/.git/") &&
  negb (includes normalized "node_modules/") &&
  negb (matchesBinaryExtension normalized).

(* ================================================================== *)
(** ** The runtime the tools talk to *)

(** A thrown [Error]; [code] is the [errno] code of a [NodeJS.ErrnoException]
    (empty when the error carries none). *)
Record Error := { code : string; message : string }.

Inductive outcome (A : Type) : Type :=
  | Returned (a : A)
  | Thrown (e : Error).
Arguments Returned {A} a.
Arguments Thrown {A} e.

(** A directory entry of [readdir(_, { withFileTypes: true })]. *)
Record Dirent := { name : string; isDirectory : bool }.

(** A child process after [proc.exited] resolved. [exitCode] is [None]
    ([null]) when the child was killed by a signal. *)
Record ExitedProcess :=
  { stdout : string; stderr : string; exitCode : option Z }.

(** What the file system, the shell and the process table answer during one
    tool call. *)
Record World := {
  file_exists : string -> outcome bool;        (* [Bun.file(p).exists()] *)
  file_size : string -> Z;                     (* [Bun.file(p).size] *)
  file_text : string -> outcome string;        (* [Bun.file(p).text()] *)
  shell_test_x : string -> outcome unit;       (* [Bun.$`test -x ${p}`] *)
  spawn : list string -> Z -> outcome ExitedProcess;
                                               (* [Bun.spawn(cmd, {timeout})] and its pipes *)
  readdir : string -> outcome (list Dirent)
}.

(** The side effects a tool call performs, in order. *)
Inductive Effect :=
  | FsExists (p : string)
  | FsSize (p : string)
  | FsText (p : string)
  | ShellTestX (p : string)
  | ProcSpawn (cmd : list string) (timeout : Z)
  | FsReaddir (p : string).

(** Computations that read the world, log their effects and may throw. *)
Definition IO (A : Type) : Type := World -> list Effect -> outcome A * list Effect.

#[global] Instance IO_ret : MRet IO := fun A a _ log => (Returned a, log).
#[global] Instance IO_bind : MBind IO := fun A B k m w log =>
  match m w log with
  | (Returned a, log') => k a w log'
  | (Thrown e, log') => (Thrown e, log')
  end.

(** [try { body } catch (err) { handler(err) }] *)
Definition tryCatch {A} (body : IO A) (handler : Error -> IO A) : IO A :=
  fun w log =>
    match body w log with
    | (Returned a, log') => (Returned a, log')
    | (Thrown e, log') => handler e w log'
    end.

Definition throw {A} (e : Error) : IO A := fun _ log => (Thrown e, log).

Definition perform {A} (ev : Effect) (ask : World -> outcome A) : IO A :=
  fun w log => (ask w, (log ++ [ev])%list).

Definition run {A} (m : IO A) (w : World) : outcome A * list Effect := m w [].

Definition Bun_file_exists (p : string) : IO bool :=
  perform (FsExists p) (fun w => file_exists w p).
Definition Bun_file_size (p : string) : IO Z :=
  perform (FsSize p) (fun w => Returned (file_size w p)).
Definition Bun_file_text (p : string) : IO string :=
  perform (FsText p) (fun w => file_text w p).
Definition Bun_shell_test_x (p : string) : IO unit :=
  perform (ShellTestX p) (fun w => shell_test_x w p).
Definition Bun_spawn (cmd : list string) (timeout : Z) : IO ExitedProcess :=
  perform (ProcSpawn cmd timeout) (fun w => spawn w cmd timeout).
Definition fs_readdir (p : string) : IO (list Dirent) :=
  perform (FsReaddir p) (fun w => readdir w p).

(* ================================================================== *)
(** ** The three tools *)

(** [`${proc.exitCode}`] *)
Definition exitCodeToString (c : option Z) : string :=
  match c with
  | Some n => numberToString n
  | None => "null"
  end.

(** [proc.exitCode !== 0] *)
Definition exitCodeNonZero (c : option Z) : bool :=
  match c with
  | Some n => negb (n =? 0)%Z
  | None => true
  end.

(** [runScriptTool.execute] *)
Definition runScript_execute (scriptPath : string) (args : option (list string))
  : IO string :=
  let args := default [] args in
  tryCatch
    (present ← Bun_file_exists scriptPath;
     if negb present then mret "Script not found"
     else
       (* Check if file is executable *)
       notExecutable ← tryCatch (_ ← Bun_shell_test_x scriptPath; mret None)
                                (fun _ => mret (Some "Script is not executable"));
       match notExecutable with
       | Some answer => mret answer
       | None =>
           proc ← Bun_spawn (scriptPath :: args) 10000;
           if exitCodeNonZero (exitCode proc)
           then mret ("Script failed with exit code "
                        ++ exitCodeToString (exitCode proc) ++ ": " ++ stderr proc)
           else mret (stdout proc)
       end)
    (fun error => mret ("Error executing script: " ++ message error)).

(** [listDirectoryTool.execute] *)
Definition listDirectory_execute (dirPath : string) : IO string :=
  tryCatch
    (entries ← fs_readdir dirPath;
     mret (join (String "010"%char "")
             ((fun entry => if isDirectory entry then name entry ++ "/"
                            else name entry) <$> entries)))
    (fun err =>
       if String.eqb (code err) "ENOENT" then mret "Directory not found"
       else throw err).

(** [readFileTool.execute] *)
Definition readFile_execute (filePath : string) : IO string :=
  tryCatch
    (present ← Bun_file_exists filePath;
     if negb present then mret "File not found"
     else
       (* Limit file size to prevent large file reads *)
       size ← Bun_file_size filePath;
       if (1000000 <? size)%Z then mret "File too large to read"
       else Bun_file_text filePath)
    (fun error => mret ("Error reading file: " ++ message error)).

(** The [tools] table of the agent: a call names a tool and carries its
    input. *)
Inductive ToolCall :=
  | runScript (scriptPath : string) (args : option (list string))
  | listDirectory (dirPath : string)
  | readFile (filePath : string).

Definition inputSchema (dir : string) (call : ToolCall) : option string :=
  match call with
  | runScript scriptPath _ =>
      if scriptPath_refine dir scriptPath then None
      else Some "Script path must be within the skills directory"
  | listDirectory _ => None
  | readFile filePath =>
      if filePath_refine filePath then None
      else Some "Cannot read that file path"
  end.

Definition execute (call : ToolCall) : IO string :=
  match call with
  | runScript scriptPath args => runScript_execute scriptPath args
  | listDirectory dirPath => listDirectory_execute dirPath
  | readFile filePath => readFile_execute filePath
  end.

Inductive ToolOutcome :=
  | InvalidInput (issue : string)
  | ToolResult (output : string)
  | ToolFault (e : Error).

(** Modelled from the spec: the tool dispatch of the agent library, which
    is not part of the sources. Section 4.1 and section 7: every tool
    validates its input against the declared schema before any side
    effect; a validation failure never reaches the file-system or process
    layer; a fault raised by [execute] goes to the turn. *)
Definition callTool (dir : string) (call : ToolCall) (w : World)
  : ToolOutcome * list Effect :=
  match inputSchema dir call with
  | Some issue => (InvalidInput issue, [])
  | None =>
      match run (execute call) w with
      | (Returned output, log) => (ToolResult output, log)
      | (Thrown e, log) => (ToolFault e, log)
      end
  end.

(* ================================================================== *)
(** ** Context window: [prepareStep] *)

(** [messages.slice(-n)] *)
Definition sliceLast {A} (n : nat) (messages : list A) : list A :=
  drop (length messages - n) messages.

(** [prepareStep]: [None] is the empty override [{}]. Indexing an array
    yields [undefined] out of range, hence the [option] slots that the
    final [filter] removes. *)
Definition prepareStep {A} (messages : list A) : option (list A) :=
  if (8 <? length messages)%nat then
    let filteredMessages :=
      omap id ((messages !! 0%nat) :: (Some <$> sliceLast 8 messages)) in
    Some filteredMessages
  else None.

(** The messages a step is run with: the override of [prepareStep] when it
    gives one, the candidate list otherwise. *)
Definition stepMessages {A} (messages : list A) : list A :=
  default messages (prepareStep messages).

(** The positions of the candidate list that [prepareStep] keeps. *)
Definition keptIndices (n : nat) : list nat :=
  if (8 <? n)%nat then 0%nat :: seq (n - 8) 8 else seq 0 n.

(** Spec side, section 8, with the indexing it announces (index 0 is the
    anchor): [message 0] followed by messages 2..9, absent slots dropped. *)
Definition specWindowOfNine {A} (messages : list A) : list A :=
  omap (fun i => messages !! i) (0%nat :: seq 2 8).

(* ================================================================== *)
(** ** Conversation state, turns and the chat loop *)

Inductive Role := user | assistant | system | tool.

Definition Role_eqb (a b : Role) : bool :=
  match a, b with
  | user, user | assistant, assistant | system, system | tool, tool => true
  | _, _ => false
  end.

Record Message := { role : Role; content : string }.

(** One inference step as the coordinator sees it: the text fragments of
    the token channel, the messages the step adds to the request of the
    next one (the assistant's tool calls and their results), and whether
    the model asked for tools, which is what makes the agent go on. *)
Record StepResult := {
  textParts : list string;
  responseMessages : list Message;
  toolCalls : bool
}.

(** How reading the event stream of a turn ends: the stream is over, by
    a stop or by the step budget, or the iteration throws. *)
Inductive StreamEnd :=
  | Stopped
  | StepLimit
  | Failed (e : Error).

Section Agent.

(** The model backend, an opaque collaborator. *)
Variable model : list Message -> outcome StepResult.

(** Modelled from the spec: the step loop of the agent library, which is
    not part of the sources; the sources pass it [prepareStep] and
    [stopWhen: stepCountIs(10)]. Section 4.3 and section 6: the model is
    driven through at most [budget] steps, each on the windowed candidate
    list; the stream ends when the model stops asking for tools or when
    the budget is reached. These are its only two endings: a fault of the
    backend is not thrown at the reader of the stream, the stream ends
    there with the text of the steps before (section 7: only a
    configuration fault ends the process). *)
Fixpoint agentSteps (budget : nat) (messages : list Message)
  : list string * StreamEnd :=
  match budget with
  | O => ([], StepLimit)
  | S budget' =>
      match model (stepMessages messages) with
      | Thrown _ => ([], Stopped)
      | Returned r =>
          if toolCalls r then
            let '(parts, fin) :=
              agentSteps budget' (messages ++ responseMessages r)%list in
            ((textParts r ++ parts)%list, fin)
          else (textParts r, Stopped)
      end
  end.

(** [agent.stream({ messages })] with [stopWhen: stepCountIs(10)]. *)
Definition agent_stream (messages : list Message) : list string * StreamEnd :=
  agentSteps 10 messages.

(** The accumulation loop [assistantResponse += textPart]. *)
Definition accumulate (parts : list string) : string :=
  fold_left String.append parts "".

(** [streamAgentResponse]: the new [conversationHistory] and whether the
    call returned or threw. *)
Definition streamAgentResponse (prompt : string) (conversationHistory : list Message)
  : list Message * outcome unit :=
  let conversationHistory :=
    (conversationHistory ++ [{| role := user; content := prompt |}])%list in
  let '(textStream, fin) := agent_stream conversationHistory in
  let assistantResponse := accumulate textStream in
  match fin with
  | Failed e => (conversationHistory, Thrown e)
  | Stopped | StepLimit =>
      ((conversationHistory
          ++ [{| role := assistant; content := assistantResponse |}])%list,
       Returned tt)
  end.

(** The coordinator between turns. *)
Inductive Status :=
  | awaiting_input
  | terminated (e : Error).

Record Session := {
  conversationHistory : list Message;
  completedTurns : nat;
  status : Status
}.

Definition initialSession : Session :=
  {| conversationHistory := []; completedTurns := 0; status := awaiting_input |}.

(** [for await (const line of console)]: a blank line re-prompts, any
    other line runs a turn; a fault that escapes the turn ends the
    process. [completedTurns] counts the calls of [streamAgentResponse]
    that returned. *)
Fixpoint chatLoop (lines : list string) (s : Session) : Session :=
  match lines with
  | [] => s
  | line :: rest =>
      if String.eqb (trim line) "" then chatLoop rest s
      else
        match streamAgentResponse line (conversationHistory s) with
        | (h, Returned _) =>
            chatLoop rest {| conversationHistory := h;
                             completedTurns := S (completedTurns s);
                             status := awaiting_input |}
        | (h, Thrown e) =>
            {| conversationHistory := h;
               completedTurns := completedTurns s;
               status := terminated e |}
        end
  end.

End Agent.

(** The role a turn expects after [r]. *)
Definition nextRole (r : Role) : Role :=
  match r with
  | user => assistant
  | _ => user
  end.

(** Roles alternate along [l], starting with [expected]. *)
Fixpoint alternatesFrom (expected : Role) (l : list Message) : bool :=
  match l with
  | [] => true
  | m :: l' => Role_eqb (role m) expected && alternatesFrom (nextRole expected) l'
  end.

(* ================================================================== *)
(** ** Spec-side predicates *)

Fixpoint isPrefixOf (p l : list string) : bool :=
  match p, l with
  | [], _ => true
  | _ :: _, [] => false
  | x :: p', y :: l' => String.eqb x y && isPrefixOf p' l'
  end.

(** Spec side, section 4.1: the normalized path lies lexically inside the
    skills root, has no upward-traversal segment and is nested at least two
    levels below the root. *)
Definition lexicallyConfined (root path : string) : bool :=
  let segments := split "/"%char (normalizeSeparators path) in
  let rootSegments := split "/"%char root in
  isPrefixOf rootSegments segments &&
  negb (existsb (String.eqb "..") segments) &&
  (length rootSegments + 2 <=? length segments)%nat.

(** Spec side, section 4.1: the normalized path names an environment-secret
    file, passes through a version-control or dependency-cache directory,
    or ends in one of the listed extensions. *)
Definition referencesDenylisted (path : string) : bool :=
  let normalized := normalizeSeparators path in
  let segments := split "/"%char normalized in
  existsb (fun seg => startsWith seg ".env") segments ||
  existsb (String.eqb ".git") segments ||
  existsb (String.eqb "node_modules") segments ||
  matchesBinaryExtension normalized.

(* ================================================================== *)
(** ** Sample worlds *)

Definition EIO : Error := {| code := "EIO"; message := "EIO: i/o error, read" |}.
Definition ENOENT : Error :=
  {| code := "ENOENT"; message := "ENOENT: no such file or directory" |}.
Definition EACCES : Error :=
  {| code := "EACCES"; message := "EACCES: permission denied" |}.
Definition ShellError : Error :=
  {| code := ""; message := "Failed with exit code 1" |}.

(** Every path names an executable script; running it ends as [proc]. *)
Definition scriptWorld (proc : ExitedProcess) : World :=
  {| file_exists := fun _ => Returned true;
     file_size := fun _ => 24%Z;
     file_text := fun _ => Returned "#!/bin/sh";
     shell_test_x := fun _ => Returned tt;
     spawn := fun _ _ => Returned proc;
     readdir := fun _ => Thrown EACCES |}.

(** Every path names a plain file of [size] bytes whose read ends as
    [text]; nothing is executable and no directory can be listed. *)
Definition fileWorld (size : Z) (text : outcome string) : World :=
  {| file_exists := fun _ => Returned true;
     file_size := fun _ => size;
     file_text := fun _ => text;
     shell_test_x := fun _ => Thrown ShellError;
     spawn := fun _ _ => Thrown EACCES;
     readdir := fun _ => Thrown EACCES |}.

(** Nothing exists. *)
Definition emptyWorld : World :=
  {| file_exists := fun _ => Returned false;
     file_size := fun _ => 0%Z;
     file_text := fun _ => Thrown ENOENT;
     shell_test_x := fun _ => Thrown ShellError;
     spawn := fun _ _ => Thrown ENOENT;
     readdir := fun _ => Thrown ENOENT |}.

(** A model that asks for tools at every step and says [parts] each time. *)
Definition busyModel (parts : list string) : list Message -> outcome StepResult :=
  fun _ => Returned {| textParts := parts; responseMessages := []; toolCalls := true |}.

(** A model that answers [text] at once. *)
Definition echoModel (text : string) : list Message -> outcome StepResult :=
  fun _ => Returned {| textParts := [text]; responseMessages := []; toolCalls := false |}.

(** A backend that is down. *)
Definition downModel : list Message -> outcome StepResult :=
  fun _ => Thrown {| code := ""; message := "fetch failed" |}.

(* ================================================================== *)
(** ** Tool previews: [compact] *)

(** [str.replace(/\s+/g, ' ')]: every maximal run of white space becomes
    one space. [inRun] tells that the previous character was white space. *)
Fixpoint replaceWhiteSpaceRuns (inRun : bool) (str : string) : string :=
  match str with
  | EmptyString => EmptyString
  | String c rest =>
      if isWhiteSpace c then
        if inRun then replaceWhiteSpaceRuns true rest
        else String " "%char (replaceWhiteSpaceRuns true rest)
      else String c (replaceWhiteSpaceRuns false rest)
  end.

(** [s.slice(0, n)] *)
Fixpoint sliceTo (n : nat) (s : string) : string :=
  match n, s with
  | S n', String c rest => String c (sliceTo n' rest)
  | _, _ => EmptyString
  end.

(** [compact]: [obj] is a string or a value of some other type [T] that
    [JSON.stringify] renders; [maxLen] defaults to 80. *)
Definition compact {T} (JSON_stringify : T -> string) (obj : string + T)
    (maxLen : option nat) : string :=
  let maxLen := default 80%nat maxLen in
  let str := match obj with inl s => s | inr o => JSON_stringify o end in
  let oneLine := replaceWhiteSpaceRuns false str in
  if (maxLen <? String.length oneLine)%nat then sliceTo maxLen oneLine ++ "..."
  else oneLine.

(** A string in which white space only occurs as single spaces; with
    [inRun] it does not start with white space either. *)
Fixpoint singleSpaced (inRun : bool) (s : string) : bool :=
  match s with
  | EmptyString => true
  | String c rest =>
      if isWhiteSpace c then negb inRun && Ascii.eqb c " "%char && singleSpaced true rest
      else singleSpaced false rest
  end.

(** Every character of the string is white space. *)
Fixpoint allWhiteSpace (s : string) : bool :=
  match s with
  | EmptyString => true
  | String c rest => isWhiteSpace c && allWhiteSpace rest
  end.

(* ================================================================== *)
(** ** Model provider configuration *)

(** [value || fallback] on an optional string: [undefined] and the empty
    string are falsy. *)
Definition orElse (value : option string) (fallback : string) : string :=
  match value with
  | Some s => if String.eqb s "" then fallback else s
  | None => fallback
  end.

(** [Bun.env.MODEL_PROVIDER || 'anthropic'] *)
Definition MODEL_PROVIDER (env : string -> option string) : string :=
  orElse (env "MODEL_PROVIDER") "anthropic".

(** [Bun.env.MODEL_NAME || (MODEL_PROVIDER === 'anthropic' ? ... : ...)] *)
Definition MODEL_NAME (env : string -> option string) : string :=
  orElse (env "MODEL_NAME")
    (if String.eqb (MODEL_PROVIDER env) "anthropic" then "claude-haiku-4-5"
     else "ministral-3:8b").

(** A model instance: the provider function applied to the model name. *)
Inductive LanguageModel :=
  | anthropic (modelId : string)
  | ollama (modelId : string).

Definition modelId (m : LanguageModel) : string :=
  match m with
  | anthropic id | ollama id => id
  end.

(** [getModel] *)
Definition getModel (env : string -> option string) : outcome LanguageModel :=
  if String.eqb (MODEL_PROVIDER env) "anthropic" then Returned (anthropic (MODEL_NAME env))
  else if String.eqb (MODEL_PROVIDER env) "ollama" then Returned (ollama (MODEL_NAME env))
  else Thrown {| code := "";
                 message := "Unknown model provider: " ++ MODEL_PROVIDER env |}.

(* ================================================================== *)
(** ** System prompt *)

(** [s.endsWith(suffix)] *)
Fixpoint endsWith (s suffix : string) : bool :=
  String.eqb s suffix ||
  match s with
  | EmptyString => false
  | String _ rest => endsWith rest suffix
  end.

(** The filter of [buildSkillsListMd]:
    [path.endsWith('SKILL.md') && path.split('/').length == 2]. *)
Definition isSkillFile (path : string) : bool :=
  endsWith path "SKILL.md" && (length (split "/"%char path) =? 2)%nat.

Module Skill.
(** The front matter of a skill document, as far as the prompt uses it. *)
Record SkillPreview := { name : string; description : string }.
End Skill.

(** What the disk answers while the prompt is built:
    [readdir(p, { recursive: true })] and [Bun.file(p).text()]. *)
Record SkillsDisk := {
  readdir_recursive : string -> outcome (list string);
  skill_text : string -> outcome string
}.

Section Prompt.

(** [import.meta.dir], the disk, and the front-matter parser [matter]. *)
Variable dir : string.
Variable disk : SkillsDisk.
Variable matter : string -> Skill.SkillPreview.

(** The loop [for (const skillFilePath of skillFilePaths)]: the lines
    pushed, or the fault that ended the loop, and the files opened. *)
Fixpoint skillLines (skillFilePaths : list string)
  : outcome (list string) * list string :=
  match skillFilePaths with
  | [] => (Returned [], [])
  | skillFilePath :: rest =>
      let file := SKILLS_PATH dir ++ "/" ++ skillFilePath in
      match skill_text disk file with
      | Thrown e => (Thrown e, [file])
      | Returned skillFileText =>
          let data := matter skillFileText in
          let line := "- **" ++ Skill.name data ++ "**: " ++ Skill.description data
                        ++ " (" ++ SKILLS_PATH dir ++ "/" ++ skillFilePath ++ ")" in
          match skillLines rest with
          | (Returned lines, opened) => (Returned (line :: lines), file :: opened)
          | (Thrown e, opened) => (Thrown e, file :: opened)
          end
      end
  end.

(** [buildSkillsListMd] *)
Definition buildSkillsListMd : outcome string * list string :=
  match readdir_recursive disk (SKILLS_PATH dir) with
  | Thrown e => (Thrown e, [])
  | Returned filePathsInSkillsFolder =>
      let skillFilePaths := List.filter isSkillFile filePathsInSkillsFolder in
      match skillLines skillFilePaths with
      | (Returned lines, opened) =>
          (Returned (if (length lines =? 0)%nat then ""
                     else join (String "010"%char "") lines), opened)
      | (Thrown e, opened) => (Thrown e, opened)
      end
  end.

Definition promptHead : string := "
# Skilled Agent

You are a skilled agent that can learn using skills that are just a bunch of markdown and small programs.

## Tone and formatting

You are being used for serious work, so try and be both serious and concise in your responses.
Use only simple markdown. currently your output is displayed in a terminal ui.

## Skills Usage Pattern

1. **Discover**: When you receive a user request, first think about which skills might be relevant
2. **Read**: Always read the full SKILL.md document before using a skill
3. **Execute**: Use the tools provided by the skill to accomplish the task
4. **Verify**: Check the results and provide feedback to the user

## Available Skills

".

Definition promptTail : string := "

## Important Rules

- ALWAYS read the SKILL.md document before using any skill-related tools
- If a skill provides scripts, they are located in the `scripts/` subdirectory
- Be explicit about what you're doing and why when using skills
- Follow the skill usage pattern for best results
".

(** [buildPrompt] *)
Definition buildPrompt : outcome string * list string :=
  match buildSkillsListMd with
  | (Returned skillsList, opened) =>
      (Returned (promptHead
                   ++ (if String.eqb skillsList "" then "No skills available currently."
                       else skillsList)
                   ++ promptTail), opened)
  | (Thrown e, opened) => (Thrown e, opened)
  end.

End Prompt.

(** Every path names a directory that holds [entries]. *)
Definition directoryWorld (entries : list Dirent) : World :=
  {| file_exists := fun _ => Returned false;
     file_size := fun _ => 0%Z;
     file_text := fun _ => Thrown EACCES;
     shell_test_x := fun _ => Returned tt;
     spawn := fun _ _ => Thrown EACCES;
     readdir := fun _ => Returned entries |}.

(** What the operator said, as the conversation state holds it. *)
Definition userLines (history : list Message) : list string :=
  content <$> List.filter (fun m => Role_eqb (role m) user) history.

(** The file [buildSkillsListMd] opens for a listed path, and the bullet
    it pushes for it when the document reads as [text]. *)
Definition skillFile (dir skillFilePath : string) : string :=
  SKILLS_PATH dir ++ "/" ++ skillFilePath.

Definition skillBullet (dir : string) (matter : string -> Skill.SkillPreview)
    (skillFilePath text : string) : string :=
  "- **" ++ Skill.name (matter text) ++ "**: " ++ Skill.description (matter text)
    ++ " (" ++ SKILLS_PATH dir ++ "/" ++ skillFilePath ++ ")".

(** A skills directory with two skill documents among other files; the
    second document is unreadable when [locked] is set. *)
Definition sampleDisk (locked : bool) : SkillsDisk :=
  {| readdir_recursive := fun _ =>
       Returned ["SKILL.md"; "pdf"; "pdf/SKILL.md"; "pdf/scripts";
                 "pdf/scripts/extract.sh"; "web"; "web/SKILL.md"; "web/notes.md"];
     skill_text := fun file =>
       if locked && String.eqb file "/app/skills/web/SKILL.md" then Thrown EACCES
       else Returned file |}.

(** A front-matter parser that takes the whole text as the name. *)
Definition sampleMatter (text : string) : Skill.SkillPreview :=
  {| Skill.name := text; Skill.description := "about" |}.

(** Spec side: the number that a string of decimal digits writes; [None]
    for the empty string and for a string with any other character. *)
Definition digitValue (c : ascii) : option Z :=
  let n := Z.of_nat (nat_of_ascii c) in
  if ((48 <=? n) && (n <=? 57))%Z then Some (n - 48)%Z else None.

Fixpoint decimalValueFrom (acc : Z) (s : string) : option Z :=
  match s with
  | EmptyString => Some acc
  | String c rest =>
      match digitValue c with
      | Some d => decimalValueFrom (10 * acc + d)%Z rest
      | None => None
      end
  end.

Definition decimalValue (s : string) : option Z :=
  match s with
  | EmptyString => None
  | _ => decimalValueFrom 0 s
  end.

(** [written] is the decimal numeral of [n], without sign or leading
    zero. *)
Definition writesExitCode (written : string) (n : Z) : bool :=
  match decimalValue written with
  | Some m => (m =? n)%Z
  | None => false
  end && negb (startsWith written "0").

(* ================================================================== *)
(** * Properties *)

(* From here on [++] is list concatenation; strings are joined with [+:+]. *)
Open Scope list_scope.

(** ** The primitives on sample inputs *)

Example split_skills_root : split "/"%char "/app/skills" = [""; "app"; "skills"].
Proof. reflexivity. Qed.
Example split_empty : split "/"%char "" = [""].
Proof. reflexivity. Qed.
Example trim_both_ends : trim "  a b 	" = "a b".
Proof. reflexivity. Qed.
Example extension_ignores_case : matchesBinaryExtension "a/b.PnG" = true /\ matchesBinaryExtension "a/b.png.txt" = false.
Proof. split; reflexivity. Qed.
Example scriptPath_refine_root : scriptPath_refine "/app" "/app/skills" = true.
Proof. reflexivity. Qed.
Example filePath_refine_env : filePath_refine ".env" = true /\ filePath_refine "x\.env" = false.
Proof. split; reflexivity. Qed.

(** [startsWith] and [includes] mean what their names say. *)
Lemma startsWith_spec (s p : string) :
  startsWith s p = true <-> exists rest, s = p +:+ rest.
Proof.
  revert s. induction p as [|c p IH]; intros s.
  - split; [intros _; by exists s | by destruct s].
  - destruct s as [|d s]; cbn [startsWith].
    + split; [done | intros [rest Hrest]; discriminate].
    + rewrite andb_true_iff, Ascii.eqb_eq, IH. split.
      * intros [-> [rest ->]]. by exists rest.
      * intros [rest Hrest].
        change (String c p +:+ rest) with (String c (p +:+ rest)) in Hrest.
        injection Hrest as -> ->. split; [done | by exists rest].
Qed.

Lemma includes_spec (s sub : string) :
  includes s sub = true <-> exists before rest, s = before +:+ sub +:+ rest.
Proof.
  induction s as [|d s IH]; cbn [includes]; rewrite orb_true_iff, startsWith_spec.
  - split.
    + intros [[rest ->]|?]; [| done]. by exists "", rest.
    + intros (before & rest & Heq). left. destruct before; [by exists rest |].
      discriminate.
  - rewrite IH. split.
    + intros [[rest ->]|(before & rest & ->)]; [by exists "", rest |].
      by exists (String d before), rest.
    + intros (before & rest & Heq). destruct before as [|c before].
      * left. by exists rest.
      * right. change (String c before +:+ sub +:+ rest)
          with (String c (before +:+ sub +:+ rest)) in Heq.
        injection Heq as -> ->. by exists before, rest.
Qed.

(** ** Context window *)

Section Window.
Context {A : Type}.
Implicit Types messages : list A.

Lemma omap_id_Some (k : list A) : omap id (Some <$> k) = k.
Proof. induction k as [|x k IH]; [done |]. cbn. f_equal. exact IH. Qed.

Lemma stepMessages_short messages :
  length messages <= 8 -> stepMessages messages = messages.
Proof.
  intros Hlen. unfold stepMessages, prepareStep.
  destruct (Nat.ltb_spec 8 (length messages)); [lia | done].
Qed.

Lemma prepareStep_long messages :
  8 < length messages ->
  prepareStep messages = Some (take 1 messages ++ sliceLast 8 messages).
Proof.
  intros Hlen. unfold prepareStep.
  destruct (Nat.ltb_spec 8 (length messages)); [| lia].
  destruct messages as [|x rest]; [simpl in Hlen; lia |].
  cbn [lookup list_lookup take app].
  change (omap id (Some x :: (Some <$> sliceLast 8 (x :: rest))))
    with (x :: omap id (Some <$> sliceLast 8 (x :: rest))).
  by rewrite omap_id_Some.
Qed.

Lemma stepMessages_long messages :
  8 < length messages ->
  stepMessages messages = take 1 messages ++ sliceLast 8 messages.
Proof.
  intros Hlen. unfold stepMessages. by rewrite prepareStep_long.
Qed.

Lemma stepMessages_length messages : length (stepMessages messages) <= 9.
Proof.
  destruct (Nat.le_gt_cases (length messages) 8) as [Hs|Hl].
  - rewrite stepMessages_short; lia.
  - rewrite stepMessages_long by done. unfold sliceLast.
    rewrite length_app, length_take, length_drop. lia.
Qed.

Lemma stepMessages_nine messages :
  length messages = 9 -> stepMessages messages = messages.
Proof.
  intros Hlen. rewrite stepMessages_long by lia.
  unfold sliceLast. rewrite Hlen. change (9 - 8) with 1.
  apply take_drop.
Qed.

Lemma stepMessages_idempotent messages :
  stepMessages (stepMessages messages) = stepMessages messages.
Proof.
  pose proof (stepMessages_length messages) as Hlen.
  destruct (Nat.le_gt_cases (length (stepMessages messages)) 8) as [Hs|Hl].
  - by apply stepMessages_short.
  - apply stepMessages_nine. lia.
Qed.

Lemma lookup_seq_drop messages (k : nat) :
  (fun i => messages !! i) <$> seq k (length messages - k)
  = Some <$> drop k messages.
Proof.
  apply list_eq. intros i.
  rewrite !list_lookup_fmap, lookup_drop.
  destruct (Nat.lt_ge_cases i (length messages - k)) as [Hlt|Hge].
  - rewrite lookup_seq_lt by done. simpl.
    destruct (lookup_lt_is_Some_2 messages (k + i)) as [y Hy]; [lia |].
    by rewrite Hy.
  - rewrite lookup_seq_ge by done. simpl.
    by rewrite lookup_ge_None_2 by lia.
Qed.

Lemma stepMessages_keptIndices messages :
  Some <$> stepMessages messages
  = (fun i => messages !! i) <$> keptIndices (length messages).
Proof.
  unfold keptIndices.
  destruct (Nat.ltb_spec 8 (length messages)) as [Hl|Hs].
  - rewrite stepMessages_long by done.
    destruct messages as [|x rest]; [simpl in Hl; lia |].
    unfold sliceLast.
    pose proof (lookup_seq_drop (x :: rest) (length (x :: rest) - 8)) as Hd.
    replace (length (x :: rest) - (length (x :: rest) - 8)) with 8 in Hd by lia.
    cbn [take app fmap list_fmap lookup list_lookup].
    f_equal. symmetry. exact Hd.
  - rewrite stepMessages_short by done.
    pose proof (lookup_seq_drop messages 0) as Hd.
    rewrite Nat.sub_0_r in Hd. by rewrite Hd.
Qed.

Lemma stepMessages_sublist messages : stepMessages messages `sublist_of` messages.
Proof.
  destruct (Nat.le_gt_cases (length messages) 8) as [Hs|Hl].
  - by rewrite stepMessages_short.
  - rewrite stepMessages_long by done.
    destruct messages as [|x rest]; [simpl in Hl; lia |].
    unfold sliceLast. simpl length.
    replace (S (length rest) - 8) with (S (length rest - 8)) by (simpl in Hl; lia).
    simpl. apply sublist_skip, sublist_drop.
Qed.

End Window.

Lemma seq_StronglySorted (a n : nat) : StronglySorted lt (seq a n).
Proof.
  revert a. induction n as [|n IH]; intros a; simpl; constructor.
  - apply IH.
  - apply Forall_forall. intros j Hj. apply elem_of_seq in Hj. lia.
Qed.

Lemma keptIndices_sorted (n : nat) : StronglySorted lt (keptIndices n).
Proof.
  unfold keptIndices. destruct (Nat.ltb_spec 8 n) as [Hl|Hs].
  - constructor; [apply seq_StronglySorted |].
    apply Forall_forall. intros j Hj. apply elem_of_seq in Hj. lia.
  - apply seq_StronglySorted.
Qed.

Lemma keptIndices_anchor (n : nat) :
  n <> 0 -> exists rest, keptIndices n = 0 :: rest /\ Forall (lt 0) rest.
Proof.
  intros Hn. unfold keptIndices. destruct (Nat.ltb_spec 8 n) as [Hl|Hs].
  - eexists; split; [done |].
    apply Forall_forall. intros j Hj. apply elem_of_seq in Hj. lia.
  - destruct n as [|n]; [done |]. simpl. eexists; split; [done |].
    apply Forall_forall. intros j Hj. apply elem_of_seq in Hj. lia.
Qed.

(** C3 (amended): above 8 messages the window is the first message followed
    by the last 8, at most 8 messages pass unchanged; a history of length 9
    comes back unchanged, that is [message 0] followed by messages 1..8,
    length 9, and it is a history of length 10 that gives [message 0]
    followed by messages 2..9; windowing twice is windowing once. *)
Theorem prepareStep_window {A} (messages : list A) :
  (8 < length messages ->
     prepareStep messages = Some (take 1 messages ++ sliceLast 8 messages)) /\
  (length messages <= 8 ->
     prepareStep messages = None /\ stepMessages messages = messages) /\
  (length messages = 9 ->
     stepMessages messages = messages /\
     Some <$> stepMessages messages = (fun i => messages !! i) <$> (0 :: seq 1 8) /\
     length (stepMessages messages) = 9) /\
  (length messages = 10 ->
     Some <$> stepMessages messages = (fun i => messages !! i) <$> (0 :: seq 2 8) /\
     length (stepMessages messages) = 9) /\
  stepMessages (stepMessages messages) = stepMessages messages.
Proof.
  repeat split.
  - apply prepareStep_long.
  - unfold prepareStep. destruct (Nat.ltb_spec 8 (length messages)); [lia | done].
  - by apply stepMessages_short.
  - by apply stepMessages_nine.
  - pose proof (stepMessages_keptIndices messages) as Hk.
    unfold keptIndices in Hk. rewrite H in Hk. exact Hk.
  - rewrite stepMessages_nine by done. done.
  - pose proof (stepMessages_keptIndices messages) as Hk.
    unfold keptIndices in Hk. rewrite H in Hk. exact Hk.
  - rewrite stepMessages_long by lia. unfold sliceLast.
    rewrite length_app, length_take, length_drop. lia.
  - apply stepMessages_idempotent.
Qed.

Lemma prepareStep_window_witness :
  stepMessages (seq 0 9) = seq 0 9 /\
  stepMessages (seq 0 12) = [0; 4; 5; 6; 7; 8; 9; 10; 11].
Proof.
  split.
  - apply (proj1 (proj1 (proj2 (proj2 (prepareStep_window (seq 0 9)))) eq_refl)).
  - pose proof (proj1 (prepareStep_window (seq 0 12))) as Hw.
    unfold stepMessages. rewrite Hw; [reflexivity | simpl; lia].
Defined.

(** C3, as stated, fails: for the history of length 9 the output is the
    history itself and keeps message 1, which [message 0] followed by
    messages 2..9 leaves out. *)
Lemma prepareStep_nine_keeps_message_one :
  length (seq 0 9) = 9 /\
  stepMessages (seq 0 9) = [0; 1; 2; 3; 4; 5; 6; 7; 8] /\
  specWindowOfNine (seq 0 9) = [0; 2; 3; 4; 5; 6; 7; 8] /\
  stepMessages (seq 0 9) <> specWindowOfNine (seq 0 9).
Proof. repeat split. discriminate. Qed.

(** C10: the window is the candidate list read at strictly increasing
    positions, hence a subsequence without duplicates or reordering;
    position 0, the anchor, is kept exactly once; at most 9 messages
    remain. *)
Theorem stepMessages_subsequence {A} (messages : list A) :
  Some <$> stepMessages messages
    = (fun i => messages !! i) <$> keptIndices (length messages) /\
  StronglySorted lt (keptIndices (length messages)) /\
  stepMessages messages `sublist_of` messages /\
  (messages <> [] ->
     exists rest, keptIndices (length messages) = 0 :: rest /\ Forall (lt 0) rest) /\
  length (stepMessages messages) <= 9.
Proof.
  split; [apply stepMessages_keptIndices |].
  split; [apply keptIndices_sorted |].
  split; [apply stepMessages_sublist |].
  split; [| apply stepMessages_length].
  intros Hne. apply keptIndices_anchor.
  destruct messages; [done | simpl; lia].
Qed.

Lemma stepMessages_subsequence_witness :
  exists rest, keptIndices (length (seq 0 12)) = 0 :: rest /\ Forall (lt 0) rest.
Proof.
  apply (proj1 (proj2 (proj2 (proj2 (stepMessages_subsequence (seq 0 12)))))).
  discriminate.
Defined.

(* ================================================================== *)
(** ** Tools *)

(** Unfolds one layer of the [IO] plumbing. *)
Ltac io_unfold :=
  unfold callTool, run, execute, runScript_execute, readFile_execute,
    listDirectory_execute, tryCatch, throw, Bun_file_exists, Bun_file_size,
    Bun_file_text, Bun_shell_test_x, Bun_spawn, fs_readdir, perform,
    mbind, IO_bind, mret, IO_ret.

Lemma callTool_invalid dir call w issue :
  inputSchema dir call = Some issue -> callTool dir call w = (InvalidInput issue, []).
Proof. intros H. unfold callTool. by rewrite H. Qed.

(** What the two schemas do reject, and that a rejected call has no
    effect. *)
Lemma runScript_rejected dir (w : World) (scriptPath : string)
    (args : option (list string)) :
  startsWith (normalizeSeparators scriptPath) (SKILLS_PATH dir) = false \/
  includes (normalizeSeparators scriptPath) "../" = true \/
  length (split "/" (normalizeSeparators scriptPath)) < 3 ->
  callTool dir (runScript scriptPath args) w
  = (InvalidInput "Script path must be within the skills directory", []).
Proof.
  intros Hbad. apply callTool_invalid. unfold inputSchema, scriptPath_refine.
  cbv zeta. destruct Hbad as [-> | [-> | Hlen]]; [done | by rewrite andb_false_r |].
  apply Nat.leb_gt in Hlen. by rewrite Hlen, andb_false_r.
Qed.

Lemma readFile_rejected dir (w : World) (filePath : string) :
  includes (normalizeSeparators filePath) "/.env" = true \/
  includes (normalizeSeparators filePath) "/.git/" = true \/
  includes (normalizeSeparators filePath) "node_modules/" = true \/
  matchesBinaryExtension (normalizeSeparators filePath) = true ->
  callTool dir (readFile filePath) w = (InvalidInput "Cannot read that file path", []).
Proof.
  intros Hbad. apply callTool_invalid. unfold inputSchema, filePath_refine.
  cbv zeta. destruct Hbad as [-> | [-> | [-> | ->]]]; simpl;
    by rewrite ?andb_false_r.
Qed.

(** *** The schema of [runScript] on the skills root itself *)

Lemma normalizeSeparators_app (a b : string) :
  normalizeSeparators (a +:+ b) = normalizeSeparators a +:+ normalizeSeparators b.
Proof.
  induction a as [|c a IH]; [reflexivity |].
  change (String c a +:+ b) with (String c (a +:+ b)).
  cbn [normalizeSeparators]. rewrite IH. reflexivity.
Qed.

Lemma startsWith_refl (s : string) : startsWith s s = true.
Proof.
  induction s as [|c s IH]; [reflexivity |].
  cbn [startsWith]. by rewrite Ascii.eqb_refl, IH.
Qed.

Lemma split_length_pos (sep : ascii) (s : string) : 1 <= length (split sep s).
Proof.
  induction s as [|c s IH]; cbn [split]; [simpl; lia |].
  destruct (Ascii.eqb c sep); [simpl; lia |].
  destruct (split sep s); simpl in *; lia.
Qed.

Lemma split_length_cons (sep c : ascii) (s : string) :
  length (split sep (String c s))
  = if Ascii.eqb c sep then S (length (split sep s)) else length (split sep s).
Proof.
  cbn [split]. destruct (Ascii.eqb c sep); [reflexivity |].
  pose proof (split_length_pos sep s).
  destruct (split sep s); simpl in *; [lia | reflexivity].
Qed.

Lemma split_length_app (sep : ascii) (a b : string) :
  length (split sep (a +:+ b)) + 1 = length (split sep a) + length (split sep b).
Proof.
  induction a as [|c a IH].
  - change ("" +:+ b) with b. simpl. lia.
  - change (String c a +:+ b) with (String c (a +:+ b)).
    rewrite !split_length_cons. destruct (Ascii.eqb c sep); lia.
Qed.

(** Whatever absolute directory the module lives in, the skills root
    itself passes the schema of [runScript], although it is not nested
    below the root at all. *)
Lemma skills_root_passes_schema (dir : string) :
  startsWith dir "/" = true ->
  normalizeSeparators dir = dir ->
  includes (SKILLS_PATH dir) "../" = false ->
  scriptPath_refine dir (SKILLS_PATH dir) = true /\
  lexicallyConfined (SKILLS_PATH dir) (SKILLS_PATH dir) = false.
Proof.
  intros Habs Hnorm Hup.
  assert (Hn : normalizeSeparators (SKILLS_PATH dir) = SKILLS_PATH dir).
  { unfold SKILLS_PATH. by rewrite normalizeSeparators_app, Hnorm. }
  split.
  - unfold scriptPath_refine. cbv zeta. rewrite Hn, startsWith_refl, Hup.
    cbn [negb andb]. apply Nat.leb_le.
    destruct dir as [|c d]; [discriminate |].
    cbn [startsWith] in Habs. apply andb_true_iff in Habs as [Hc _].
    pose proof (split_length_app "/" (String c d) "/skills") as Hlen.
    rewrite split_length_cons in Hlen. rewrite Ascii.eqb_sym, Hc in Hlen.
    pose proof (split_length_pos "/" d).
    unfold SKILLS_PATH. change (length (split "/" "/skills")) with 2 in Hlen. lia.
  - unfold lexicallyConfined. cbv zeta. rewrite Hn.
    apply andb_false_iff. right. apply Nat.leb_gt. lia.
Qed.

Lemma skills_root_passes_schema_app :
  scriptPath_refine "/srv/agent/src" "/srv/agent/src/skills" = true.
Proof. by apply skills_root_passes_schema. Qed.

(** C1: the schema lets through paths that are not confined to
    [<skillsRoot>/<skill>/<subpath>]: the skills root itself, a file directly
    under it, a sibling directory whose name extends the root's, and a path
    ending in an upward-traversal segment; each call goes on to spawn. *)
Theorem runScript_accepts_unconfined_paths :
  Forall (fun p =>
            lexicallyConfined (SKILLS_PATH "/app") p = false /\
            scriptPath_refine "/app" p = true /\
            callTool "/app" (runScript p None)
              (scriptWorld {| stdout := "ok"; stderr := ""; exitCode := Some 0%Z |})
            = (ToolResult "ok", [FsExists p; ShellTestX p; ProcSpawn [p] 10000]))
    ["/app/skills"; "/app/skills/run.sh"; "/app/skills-evil/bin/run.sh";
     "/app/skills/demo/scripts/.."; "\app\skills\.."].
Proof. repeat constructor. Qed.

(** C2: the schema lets through relative paths to an environment-secret
    file and into a version-control directory, which are then read, while
    the same shapes behind a separator, and the dependency cache in
    relative form, are rejected without any effect. *)
Theorem readFile_reads_relative_secret_paths :
  Forall (fun p =>
            referencesDenylisted p = true /\
            filePath_refine p = true /\
            callTool "/app" (readFile p) (fileWorld 14 (Returned "API_KEY=secret"))
            = (ToolResult "API_KEY=secret", [FsExists p; FsSize p; FsText p]))
    [".env"; ".env.local"; ".git/config"; ".git\config"] /\
  Forall (fun p =>
            referencesDenylisted p = true /\
            callTool "/app" (readFile p) (fileWorld 14 (Returned "API_KEY=secret"))
            = (InvalidInput "Cannot read that file path", []))
    ["./.env"; "/srv/app/.env"; "./.git/config"; "node_modules/pkg/index.js";
     "logo.PNG"].
Proof. split; repeat constructor. Qed.

(** C4: an existing file that passes the schema is answered with the
    too-large message, unread, when its size exceeds 1,000,000 bytes, and
    with its text when the size is at most 1,000,000 bytes and the read
    succeeds; 1,000,001 bytes is too large and 1,000,000 bytes is read. *)
Theorem readFile_size_limit dir (w : World) (filePath text : string) :
  filePath_refine filePath = true ->
  file_exists w filePath = Returned true ->
  ((1000000 < file_size w filePath)%Z ->
     callTool dir (readFile filePath) w
     = (ToolResult "File too large to read", [FsExists filePath; FsSize filePath])) /\
  ((file_size w filePath <= 1000000)%Z -> file_text w filePath = Returned text ->
     callTool dir (readFile filePath) w
     = (ToolResult text, [FsExists filePath; FsSize filePath; FsText filePath])) /\
  (file_size w filePath = 1000001%Z ->
     fst (callTool dir (readFile filePath) w) = ToolResult "File too large to read") /\
  (file_size w filePath = 1000000%Z -> file_text w filePath = Returned text ->
     fst (callTool dir (readFile filePath) w) = ToolResult text).
Proof.
  intros Hvalid Hex.
  assert (Hbig : (1000000 < file_size w filePath)%Z ->
     callTool dir (readFile filePath) w
     = (ToolResult "File too large to read", [FsExists filePath; FsSize filePath])).
  { intros Hsz. io_unfold. simpl. rewrite Hvalid, Hex. simpl.
    destruct (Z.ltb_spec 1000000 (file_size w filePath)); [done | lia]. }
  assert (Hsmall : (file_size w filePath <= 1000000)%Z ->
     file_text w filePath = Returned text ->
     callTool dir (readFile filePath) w
     = (ToolResult text, [FsExists filePath; FsSize filePath; FsText filePath])).
  { intros Hsz Htext. io_unfold. simpl. rewrite Hvalid, Hex. simpl.
    destruct (Z.ltb_spec 1000000 (file_size w filePath)); [lia |].
    by rewrite Htext. }
  repeat split; [exact Hbig | exact Hsmall | |].
  - intros Hsz. rewrite Hbig; [done | lia].
  - intros Hsz Htext. rewrite Hsmall; [done | lia | done].
Qed.

Lemma readFile_size_limit_witness :
  fst (callTool "/app" (readFile "notes/big.txt") (fileWorld 1000001 (Returned "x")))
    = ToolResult "File too large to read" /\
  fst (callTool "/app" (readFile "notes/big.txt") (fileWorld 1000000 (Returned "x")))
    = ToolResult "x".
Proof.
  split.
  - apply (readFile_size_limit "/app" (fileWorld 1000001 (Returned "x"))
             "notes/big.txt" "x" eq_refl eq_refl).
    reflexivity.
  - apply (readFile_size_limit "/app" (fileWorld 1000000 (Returned "x"))
             "notes/big.txt" "x" eq_refl eq_refl); reflexivity.
Defined.

(** How [numberToString] writes the exit statuses a process can end with:
    as their decimal numeral. *)
Lemma numberToString_exit_status (n : Z) :
  (0 < n <= 255)%Z -> writesExitCode (numberToString n) n = true.
Proof.
  intros Hn.
  assert (Hall : forallb (fun k => writesExitCode (numberToString (Z.of_nat k))
                                     (Z.of_nat k)) (seq 1 255) = true)
    by (vm_compute; reflexivity).
  rewrite forallb_forall in Hall.
  rewrite <- (Z2Nat.id n) by lia. apply Hall, in_seq. lia.
Qed.

Example numberToString_samples :
  numberToString 0 = "0" /\ numberToString 1 = "1" /\ numberToString 9 = "9" /\
  numberToString 10 = "10" /\ numberToString 127 = "127" /\
  numberToString 255 = "255" /\ numberToString (-1) = "-1".
Proof. repeat split. Qed.

(** C5: for a script path that passes the schema, a missing target gives
    "Script not found" and a target that fails the executable test gives
    "Script is not executable", both as results and without a spawn; a
    script that exits with a status other than 0 gives the failure string
    with the exit code, written as its decimal numeral (1, 127 and 255
    among them), and the captured standard error; a script that exits
    with status 0 gives its standard output. *)
Theorem runScript_results dir (w : World) (scriptPath : string)
    (args : option (list string)) :
  scriptPath_refine dir scriptPath = true ->
  (file_exists w scriptPath = Returned false ->
     callTool dir (runScript scriptPath args) w
     = (ToolResult "Script not found", [FsExists scriptPath])) /\
  (forall e, file_exists w scriptPath = Returned true ->
     shell_test_x w scriptPath = Thrown e ->
     callTool dir (runScript scriptPath args) w
     = (ToolResult "Script is not executable",
        [FsExists scriptPath; ShellTestX scriptPath])) /\
  (forall proc,
     file_exists w scriptPath = Returned true ->
     shell_test_x w scriptPath = Returned tt ->
     spawn w (scriptPath :: default [] args) 10000 = Returned proc ->
     (forall n, exitCode proc = Some n -> n <> 0%Z ->
        fst (callTool dir (runScript scriptPath args) w)
        = ToolResult ("Script failed with exit code " +:+ numberToString n
                        +:+ ": " +:+ stderr proc)) /\
     (exitCode proc = Some 0%Z ->
        fst (callTool dir (runScript scriptPath args) w) = ToolResult (stdout proc)) /\
     (forall n, exitCode proc = Some n -> (0 < n <= 255)%Z ->
        exists written,
          fst (callTool dir (runScript scriptPath args) w)
          = ToolResult ("Script failed with exit code " +:+ written
                          +:+ ": " +:+ stderr proc) /\
          decimalValue written = Some n /\
          startsWith written "0" = false) /\
     (exitCode proc = Some 1%Z ->
        fst (callTool dir (runScript scriptPath args) w)
        = ToolResult ("Script failed with exit code 1: " +:+ stderr proc)) /\
     (exitCode proc = Some 127%Z ->
        fst (callTool dir (runScript scriptPath args) w)
        = ToolResult ("Script failed with exit code 127: " +:+ stderr proc)) /\
     (exitCode proc = Some 255%Z ->
        fst (callTool dir (runScript scriptPath args) w)
        = ToolResult ("Script failed with exit code 255: " +:+ stderr proc))).
Proof.
  intros Hvalid. split; [| split].
  - intros Hex. io_unfold. simpl. by rewrite Hvalid, Hex.
  - intros e Hex Hx. io_unfold. simpl. rewrite Hvalid, Hex. simpl. by rewrite Hx.
  - intros proc Hex Hx Hspawn.
    assert (Hrun : fst (callTool dir (runScript scriptPath args) w)
              = ToolResult (if exitCodeNonZero (exitCode proc)
                            then "Script failed with exit code "
                                 +:+ exitCodeToString (exitCode proc)
                                 +:+ ": " +:+ stderr proc
                            else stdout proc)).
    { io_unfold. simpl. rewrite Hvalid, Hex. simpl. rewrite Hx. simpl.
      rewrite Hspawn. simpl. by destruct (exitCodeNonZero (exitCode proc)). }
    assert (Hfail : forall n, exitCode proc = Some n -> n <> 0%Z ->
              fst (callTool dir (runScript scriptPath args) w)
              = ToolResult ("Script failed with exit code " +:+ numberToString n
                              +:+ ": " +:+ stderr proc)).
    { intros n Hcode Hn. rewrite Hrun, Hcode. simpl. by destruct (Z.eqb_spec n 0). }
    split; [exact Hfail |]. split; [| split; [| split; [| split]]].
    + intros Hcode. by rewrite Hrun, Hcode.
    + intros n Hcode Hn. exists (numberToString n).
      split; [apply Hfail; [done | lia] |].
      pose proof (numberToString_exit_status n Hn) as Hw.
      unfold writesExitCode in Hw. apply andb_true_iff in Hw as [Hvalue Hzero].
      split; [| by apply negb_true_iff].
      destruct (decimalValue (numberToString n)) as [m|]; [| done].
      by apply Z.eqb_eq in Hvalue as ->.
    + intros Hcode. by rewrite (Hfail 1%Z).
    + intros Hcode. by rewrite (Hfail 127%Z).
    + intros Hcode. by rewrite (Hfail 255%Z).
Qed.

Lemma runScript_results_witness :
  callTool "/app" (runScript "/app/skills/demo/scripts/run.sh" None) emptyWorld
    = (ToolResult "Script not found", [FsExists "/app/skills/demo/scripts/run.sh"]) /\
  fst (callTool "/app" (runScript "/app/skills/demo/scripts/run.sh" (Some ["-v"]))
         (scriptWorld {| stdout := "partial"; stderr := "boom"; exitCode := Some 2%Z |}))
    = ToolResult "Script failed with exit code 2: boom" /\
  fst (callTool "/app" (runScript "/app/skills/demo/scripts/run.sh" None)
         (scriptWorld {| stdout := ""; stderr := "not found"; exitCode := Some 127%Z |}))
    = ToolResult "Script failed with exit code 127: not found" /\
  fst (callTool "/app" (runScript "/app/skills/demo/scripts/run.sh" None)
         (scriptWorld {| stdout := ""; stderr := ""; exitCode := Some 255%Z |}))
    = ToolResult "Script failed with exit code 255: " /\
  fst (callTool "/app" (runScript "/app/skills/demo/scripts/run.sh" None)
         (scriptWorld {| stdout := "done"; stderr := "warn"; exitCode := Some 0%Z |}))
    = ToolResult "done".
Proof.
  split; [| split; [| split; [| split]]].
  - apply (runScript_results "/app" emptyWorld "/app/skills/demo/scripts/run.sh"
             None eq_refl).
    reflexivity.
  - apply (proj1 (proj2 (proj2 (runScript_results "/app"
             (scriptWorld {| stdout := "partial"; stderr := "boom"; exitCode := Some 2%Z |})
             "/app/skills/demo/scripts/run.sh" (Some ["-v"]) eq_refl))
             {| stdout := "partial"; stderr := "boom"; exitCode := Some 2%Z |}
             eq_refl eq_refl eq_refl) 2%Z eq_refl).
    discriminate.
  - apply (proj2 (proj2 (proj2 (runScript_results "/app"
             (scriptWorld {| stdout := ""; stderr := "not found"; exitCode := Some 127%Z |})
             "/app/skills/demo/scripts/run.sh" None eq_refl))
             {| stdout := ""; stderr := "not found"; exitCode := Some 127%Z |}
             eq_refl eq_refl eq_refl)).
    reflexivity.
  - apply (proj2 (proj2 (proj2 (runScript_results "/app"
             (scriptWorld {| stdout := ""; stderr := ""; exitCode := Some 255%Z |})
             "/app/skills/demo/scripts/run.sh" None eq_refl))
             {| stdout := ""; stderr := ""; exitCode := Some 255%Z |}
             eq_refl eq_refl eq_refl)).
    reflexivity.
  - apply (proj2 (proj2 (runScript_results "/app"
             (scriptWorld {| stdout := "done"; stderr := "warn"; exitCode := Some 0%Z |})
             "/app/skills/demo/scripts/run.sh" None eq_refl))
             {| stdout := "done"; stderr := "warn"; exitCode := Some 0%Z |}
             eq_refl eq_refl eq_refl).
    reflexivity.
Defined.

(** [runScript] and [readFile] catch whatever their bodies throw. *)
Lemma runScript_execute_returns scriptPath args w log :
  exists output log', runScript_execute scriptPath args w log = (Returned output, log').
Proof.
  io_unfold. simpl.
  destruct (file_exists w scriptPath) as [[|]|e]; simpl; eauto.
  destruct (shell_test_x w scriptPath) as [[]|e]; simpl; eauto.
  destruct (spawn w (scriptPath :: default [] args) 10000) as [proc|e]; simpl; eauto.
  destruct (exitCodeNonZero (exitCode proc)); eauto.
Qed.

Lemma readFile_execute_returns filePath w log :
  exists output log', readFile_execute filePath w log = (Returned output, log').
Proof.
  io_unfold. simpl.
  destruct (file_exists w filePath) as [[|]|e]; simpl; eauto.
  destruct (1000000 <? file_size w filePath)%Z; simpl; eauto.
  destruct (file_text w filePath) as [text|e]; simpl; eauto.
Qed.

(** C7 (amended): directory listing answers "Directory not found" for a
    missing directory and raises any other failure as a fault; script
    execution and file reading never raise a fault: a failure of the file
    system or of the spawn while they run comes back as the result text
    "Error executing script: ..." or "Error reading file: ...". *)
Theorem tool_failure_contract dir (w : World) :
  (forall dirPath e, readdir w dirPath = Thrown e ->
     callTool dir (listDirectory dirPath) w
     = (if String.eqb (code e) "ENOENT" then ToolResult "Directory not found"
        else ToolFault e,
        [FsReaddir dirPath])) /\
  (forall filePath, filePath_refine filePath = true ->
     file_exists w filePath = Returned false ->
     callTool dir (readFile filePath) w
     = (ToolResult "File not found", [FsExists filePath])) /\
  (forall scriptPath args e, fst (callTool dir (runScript scriptPath args) w) <> ToolFault e) /\
  (forall filePath e, fst (callTool dir (readFile filePath) w) <> ToolFault e) /\
  (forall filePath e, filePath_refine filePath = true ->
     file_exists w filePath = Returned true ->
     (file_size w filePath <= 1000000)%Z ->
     file_text w filePath = Thrown e ->
     fst (callTool dir (readFile filePath) w)
     = ToolResult ("Error reading file: " +:+ message e)) /\
  (forall scriptPath args e, scriptPath_refine dir scriptPath = true ->
     file_exists w scriptPath = Returned true ->
     shell_test_x w scriptPath = Returned tt ->
     spawn w (scriptPath :: default [] args) 10000 = Thrown e ->
     fst (callTool dir (runScript scriptPath args) w)
     = ToolResult ("Error executing script: " +:+ message e)).
Proof.
  repeat split.
  - intros dirPath e Hdir. io_unfold. simpl. rewrite Hdir.
    by destruct (String.eqb (code e) "ENOENT").
  - intros filePath Hvalid Hex. io_unfold. simpl. by rewrite Hvalid, Hex.
  - intros scriptPath args e. unfold callTool, run, execute.
    destruct (inputSchema dir (runScript scriptPath args)); [done |].
    destruct (runScript_execute_returns scriptPath args w []) as (out & log & Hr).
    by rewrite Hr.
  - intros filePath e. unfold callTool, run, execute.
    destruct (inputSchema dir (readFile filePath)); [done |].
    destruct (readFile_execute_returns filePath w []) as (out & log & Hr).
    by rewrite Hr.
  - intros filePath e Hvalid Hex Hsz Htext. io_unfold. simpl.
    rewrite Hvalid, Hex. simpl.
    destruct (Z.ltb_spec 1000000 (file_size w filePath)); [lia |].
    by rewrite Htext.
  - intros scriptPath args e Hvalid Hex Hx Hspawn. io_unfold. simpl.
    rewrite Hvalid, Hex. simpl. rewrite Hx. simpl. by rewrite Hspawn.
Qed.

Lemma tool_failure_contract_witness :
  callTool "/app" (listDirectory "/app/skills/none") emptyWorld
    = (ToolResult "Directory not found", [FsReaddir "/app/skills/none"]) /\
  callTool "/app" (listDirectory "/root") (fileWorld 0 (Thrown EIO))
    = (ToolFault EACCES, [FsReaddir "/root"]) /\
  fst (callTool "/app" (readFile "notes.txt") (fileWorld 10 (Thrown EIO)))
    = ToolResult "Error reading file: EIO: i/o error, read".
Proof.
  split; [| split].
  - apply (proj1 (tool_failure_contract "/app" emptyWorld) "/app/skills/none" ENOENT).
    reflexivity.
  - apply (proj1 (tool_failure_contract "/app" (fileWorld 0 (Thrown EIO))) "/root" EACCES).
    reflexivity.
  - apply (proj1 (proj2 (proj2 (proj2 (proj2
             (tool_failure_contract "/app" (fileWorld 10 (Thrown EIO)))))))
             "notes.txt" EIO); [reflexivity | reflexivity | | reflexivity].
    vm_compute. discriminate.
Defined.

(** C7, as stated, fails: an I/O error of the read, unrelated to absence,
    is not raised by [readFile] but returned as result text. *)
Lemma readFile_returns_io_error_as_text :
  file_exists (fileWorld 10 (Thrown EIO)) "notes.txt" = Returned true /\
  file_text (fileWorld 10 (Thrown EIO)) "notes.txt" = Thrown EIO /\
  code EIO <> "ENOENT" /\
  callTool "/app" (readFile "notes.txt") (fileWorld 10 (Thrown EIO))
    = (ToolResult "Error reading file: EIO: i/o error, read",
       [FsExists "notes.txt"; FsSize "notes.txt"; FsText "notes.txt"]) /\
  fst (callTool "/app" (readFile "notes.txt") (fileWorld 10 (Thrown EIO)))
    <> ToolFault EIO.
Proof. repeat split; discriminate. Qed.

(* ================================================================== *)
(** ** Conversation state *)

Lemma Role_eqb_eq (a b : Role) : Role_eqb a b = true <-> a = b.
Proof. destruct a, b; simpl; split; congruence. Qed.

Lemma nextRole_neq (r : Role) : nextRole r <> r.
Proof. by destruct r. Qed.

Lemma alternatesFrom_app (r : Role) (h k : list Message) :
  r = user \/ r = assistant ->
  alternatesFrom r (h ++ k)
  = alternatesFrom r h
    && alternatesFrom (if Nat.even (length h) then r else nextRole r) k.
Proof.
  revert r. induction h as [|m h IH]; intros r Hr; [done |].
  cbn [app alternatesFrom]. rewrite IH by (destruct Hr; subst; auto).
  rewrite <- andb_assoc. do 2 f_equal.
  change (length (m :: h)) with (S (length h)).
  rewrite Nat.even_succ, <- Nat.negb_even.
  destruct (Nat.even (length h)); simpl; [done |].
  by destruct Hr; subst.
Qed.

Lemma alternatesFrom_adjacent (r : Role) (l : list Message) (i : nat) (a b : Message) :
  alternatesFrom r l = true ->
  l !! i = Some a -> l !! S i = Some b -> role a <> role b.
Proof.
  revert r i. induction l as [|m l IH]; intros r i Halt Ha Hb; [done |].
  simpl in Halt. apply andb_true_iff in Halt as [Hm Hl].
  destruct i as [|i].
  - simpl in Ha, Hb. injection Ha as ->.
    destruct l as [|m' l]; [done |]. simpl in Hb. injection Hb as ->.
    simpl in Hl. apply andb_true_iff in Hl as [Hb _].
    apply Role_eqb_eq in Hm, Hb. rewrite Hm, Hb.
    intros Heq. by apply (nextRole_neq r).
  - simpl in Ha, Hb. by apply (IH (nextRole r) i).
Qed.

Section Turns.
Variable model : list Message -> outcome StepResult.

(** A turn appends the user message and, unless the stream failed, the
    assistant message. *)
Lemma streamAgentResponse_shape (prompt : string) (h : list Message) :
  (exists e, streamAgentResponse model prompt h
             = (h ++ [{| role := user; content := prompt |}], Thrown e)) \/
  (exists text, streamAgentResponse model prompt h
                = (h ++ [{| role := user; content := prompt |};
                         {| role := assistant; content := text |}], Returned tt)).
Proof.
  unfold streamAgentResponse.
  destruct (agent_stream model _) as [parts fin].
  destruct fin; [right | right | left]; eauto;
    eexists; by rewrite <- app_assoc.
Qed.

(** What holds of a session between two lines. *)
Definition sessionInvariant (s : Session) : Prop :=
  alternatesFrom user (conversationHistory s) = true /\
  length (conversationHistory s)
  = 2 * completedTurns s
    + match status s with awaiting_input => 0 | terminated _ => 1 end.

Lemma chatLoop_invariant (lines : list string) (s : Session) :
  status s = awaiting_input -> sessionInvariant s ->
  sessionInvariant (chatLoop model lines s).
Proof.
  revert s. induction lines as [|line rest IH]; intros s Hst Hinv; [done |].
  simpl. destruct (String.eqb (trim line) ""); [by apply IH |].
  destruct Hinv as [Halt Hlen]. rewrite Hst in Hlen.
  assert (Heven : Nat.even (length (conversationHistory s)) = true).
  { rewrite Hlen, Nat.add_0_r. apply Nat.even_spec. by exists (completedTurns s). }
  destruct (streamAgentResponse_shape line (conversationHistory s))
    as [[e Hr]|[text Hr]]; rewrite Hr.
  - split; simpl.
    + rewrite alternatesFrom_app by auto. by rewrite Halt, Heven.
    + rewrite length_app. simpl. lia.
  - apply IH; [done |]. split; simpl.
    + rewrite alternatesFrom_app by auto. by rewrite Halt, Heven.
    + rewrite length_app. simpl. lia.
Qed.

(** A fault ends the loop; otherwise every non-blank line is one
    completed turn. *)
Lemma chatLoop_counts_turns (lines : list string) (s : Session) :
  status s = awaiting_input ->
  status (chatLoop model lines s) = awaiting_input ->
  completedTurns (chatLoop model lines s)
  = completedTurns s
    + length (filter (fun line => String.eqb (trim line) "" = false) lines).
Proof.
  revert s. induction lines as [|line rest IH]; intros s Hst Hend; simpl in *.
  - lia.
  - rewrite filter_cons.
    destruct (String.eqb (trim line) "") eqn:Hblank.
    + rewrite decide_False by done. by apply IH.
    + rewrite decide_True by done.
      destruct (streamAgentResponse model line (conversationHistory s))
        as [h [[]|e]]; [| done].
      rewrite IH by done. simpl. lia.
Qed.

End Turns.

(** C8: whatever the operator types and the model answers, the roles of
    the conversation state alternate starting with a user message, no two
    neighbours have the same role, and while the loop awaits input the
    state holds exactly two messages per completed turn. *)
Theorem conversation_alternates (model : list Message -> outcome StepResult)
    (lines : list string) :
  alternatesFrom user (conversationHistory (chatLoop model lines initialSession)) = true /\
  (forall i a b,
     conversationHistory (chatLoop model lines initialSession) !! i = Some a ->
     conversationHistory (chatLoop model lines initialSession) !! S i = Some b ->
     role a <> role b) /\
  (status (chatLoop model lines initialSession) = awaiting_input ->
   length (conversationHistory (chatLoop model lines initialSession))
   = 2 * completedTurns (chatLoop model lines initialSession)).
Proof.
  destruct (chatLoop_invariant model lines initialSession) as [Halt Hlen];
    [done | done |].
  split; [done |]. split.
  - intros i a b Ha Hb. exact (alternatesFrom_adjacent user _ i a b Halt Ha Hb).
  - intros Hst. rewrite Hst in Hlen. lia.
Qed.

Lemma conversation_alternates_witness :
  length (conversationHistory
            (chatLoop (echoModel "hi") ["one"; "  "; "two"; "three"] initialSession))
  = 2 * 3.
Proof.
  apply (proj2 (proj2 (conversation_alternates (echoModel "hi")
                         ["one"; "  "; "two"; "three"]))).
  reflexivity.
Defined.

(** The library never throws at the reader: reading a stream never ends
    in [Failed], so every turn returns and the loop keeps reading. *)
Lemma agentSteps_never_fails (model : list Message -> outcome StepResult)
    (budget : nat) (messages : list Message) (e : Error) :
  snd (agentSteps model budget messages) <> Failed e.
Proof.
  revert messages. induction budget as [|budget IH]; intros messages; [done |].
  simpl. destruct (model (stepMessages messages)) as [r|]; [| done].
  destruct (toolCalls r); [| done].
  specialize (IH (messages ++ responseMessages r)).
  by destruct (agentSteps model budget (messages ++ responseMessages r)).
Qed.

Lemma chatLoop_keeps_reading (model : list Message -> outcome StepResult)
    (lines : list string) (s : Session) :
  status s = awaiting_input -> status (chatLoop model lines s) = awaiting_input.
Proof.
  revert s. induction lines as [|line rest IH]; intros s Hst; [done |].
  simpl. destruct (String.eqb (trim line) ""); [by apply IH |].
  unfold streamAgentResponse.
  pose proof (agentSteps_never_fails model 10
                (conversationHistory s ++ [{| role := user; content := line |}])) as Hnf.
  unfold agent_stream.
  destruct (agentSteps model 10 _) as [parts [| |e]]; [by apply IH | by apply IH |].
  by destruct (Hnf e).
Qed.

(** A backend that is down costs each turn its answer, not the session:
    the assistant message is empty and the next line is read. *)
Example chatLoop_backend_down :
  chatLoop downModel ["one"; "two"] initialSession
  = {| conversationHistory :=
         [{| role := user; content := "one" |};
          {| role := assistant; content := "" |};
          {| role := user; content := "two" |};
          {| role := assistant; content := "" |}];
       completedTurns := 2;
       status := awaiting_input |}.
Proof. reflexivity. Qed.

(* ================================================================== *)
(** ** Step budget *)

Lemma append_empty_r (s : string) : s +:+ "" = s.
Proof.
  induction s as [|c s IH]; [reflexivity |].
  change (String c (s +:+ "") = String c s). by rewrite IH.
Qed.

Lemma append_assoc (s t u : string) : (s +:+ t) +:+ u = s +:+ (t +:+ u).
Proof.
  induction s as [|c s IH]; [reflexivity |].
  change (String c ((s +:+ t) +:+ u) = String c (s +:+ (t +:+ u))). by rewrite IH.
Qed.

Lemma accumulate_from (parts : list string) (acc : string) :
  fold_left String.append parts acc = acc +:+ accumulate parts.
Proof.
  unfold accumulate. revert acc.
  induction parts as [|p parts IH]; intros acc; simpl.
  - by rewrite append_empty_r.
  - change ("" +:+ p) with p. rewrite IH, (IH p). by rewrite append_assoc.
Qed.

Lemma accumulate_app (a b : list string) :
  accumulate (a ++ b) = accumulate a +:+ accumulate b.
Proof. unfold accumulate at 1. rewrite fold_left_app. apply accumulate_from. Qed.

(** A model that keeps asking for tools is cut off by the budget. *)
Lemma agentSteps_always_tools (model : list Message -> outcome StepResult)
    (budget : nat) (messages : list Message) :
  (forall ms, exists r, model ms = Returned r /\ toolCalls r = true) ->
  snd (agentSteps model budget messages) = StepLimit.
Proof.
  intros Hbusy. revert messages.
  induction budget as [|budget IH]; intros messages; [done |].
  simpl. destruct (Hbusy (stepMessages messages)) as (r & -> & ->).
  specialize (IH (messages ++ responseMessages r)).
  by destruct (agentSteps model budget (messages ++ responseMessages r)).
Qed.

(** The model is asked at most [budget] times: once the budget is spent
    the stream ends without a further step. *)
Lemma agentSteps_no_budget (model : list Message -> outcome StepResult)
    (messages : list Message) :
  agentSteps model 0 messages = ([], StepLimit).
Proof. reflexivity. Qed.

(** C9 (amended): a turn whose stream ends on the 10-step budget completes
    like any other: the text accumulated so far, which may be partial and
    may be empty, is appended as one assistant message after the user
    message, the turn counts as completed and the loop awaits input. *)
Theorem step_limit_completes_turn (model : list Message -> outcome StepResult)
    (line : string) (s : Session) (parts : list string) :
  String.eqb (trim line) "" = false ->
  agent_stream model (conversationHistory s ++ [{| role := user; content := line |}])
  = (parts, StepLimit) ->
  streamAgentResponse model line (conversationHistory s)
  = (conversationHistory s
       ++ [{| role := user; content := line |};
           {| role := assistant; content := accumulate parts |}],
     Returned tt) /\
  chatLoop model [line] s
  = {| conversationHistory :=
         conversationHistory s
           ++ [{| role := user; content := line |};
               {| role := assistant; content := accumulate parts |}];
       completedTurns := S (completedTurns s);
       status := awaiting_input |}.
Proof.
  intros Hline Hstream.
  assert (Hturn : streamAgentResponse model line (conversationHistory s)
            = (conversationHistory s
                 ++ [{| role := user; content := line |};
                     {| role := assistant; content := accumulate parts |}],
               Returned tt)).
  { unfold streamAgentResponse. rewrite Hstream. by rewrite <- app_assoc. }
  split; [exact Hturn |].
  simpl. by rewrite Hline, Hturn.
Qed.

Lemma step_limit_completes_turn_witness :
  chatLoop (busyModel ["a"; "b"]) ["go"] initialSession
  = {| conversationHistory :=
         [{| role := user; content := "go" |};
          {| role := assistant; content := "abababababababababab" |}];
       completedTurns := 1;
       status := awaiting_input |}.
Proof.
  apply (proj2 (step_limit_completes_turn (busyModel ["a"; "b"]) "go" initialSession
                  (concat (replicate 10 ["a"; "b"])) eq_refl eq_refl)).
Defined.

(** C9, as stated, fails: ten steps of tool calls without any text exhaust
    the budget and the assistant message that is appended is empty. *)
Lemma step_limit_turn_may_be_empty :
  agent_stream (busyModel []) [{| role := user; content := "go" |}] = ([], StepLimit) /\
  chatLoop (busyModel []) ["go"] initialSession
  = {| conversationHistory :=
         [{| role := user; content := "go" |};
          {| role := assistant; content := "" |}];
       completedTurns := 1;
       status := awaiting_input |}.
Proof. split; reflexivity. Qed.

(* ================================================================== *)
(** ** What the script tool asks of the runtime *)

(** Every spawn carries the 10 second timeout, and a child that was ended
    by a signal, as the runtime does when the timeout expires, is reported
    as a failure string. *)
Lemma runScript_spawn_timeout (w : World) (scriptPath : string)
    (args : option (list string)) :
  Forall (fun ev => match ev with
                    | ProcSpawn _ timeout => timeout = 10000%Z
                    | _ => True
                    end)
    (snd (run (runScript_execute scriptPath args) w)) /\
  (forall proc, file_exists w scriptPath = Returned true ->
     shell_test_x w scriptPath = Returned tt ->
     spawn w (scriptPath :: default [] args) 10000 = Returned proc ->
     exitCode proc = None ->
     fst (run (runScript_execute scriptPath args) w)
     = Returned ("Script failed with exit code null: " +:+ stderr proc)).
Proof.
  split.
  - io_unfold. simpl.
    destruct (file_exists w scriptPath) as [[|]|e]; simpl; repeat constructor.
    destruct (shell_test_x w scriptPath) as [[]|e]; simpl; repeat constructor.
    destruct (spawn w (scriptPath :: default [] args) 10000) as [proc|e]; simpl;
      [destruct (exitCodeNonZero (exitCode proc)) |]; repeat constructor.
  - intros proc Hex Hx Hspawn Hcode. io_unfold. simpl.
    rewrite Hex. simpl. rewrite Hx. simpl. rewrite Hspawn. simpl.
    by rewrite Hcode.
Qed.

(* ================================================================== *)
(** * Further properties of the code *)

(** ** Context window: what survives *)

(** The window holds [min n 9] of [n] candidate messages: nothing is
    dropped up to 9 messages, and from 10 on exactly [n - 9] are. *)
Theorem stepMessages_exact_length {A} (messages : list A) :
  length (stepMessages messages) = Nat.min (length messages) 9.
Proof.
  destruct (Nat.le_gt_cases (length messages) 8) as [Hs|Hl].
  - rewrite stepMessages_short by done. lia.
  - rewrite stepMessages_long by done. unfold sliceLast.
    rewrite length_app, length_take, length_drop. lia.
Qed.

(** The last 8 candidate messages always reach the model, at the end of
    the window and in their order; in particular the newest message is
    never cut. *)
Theorem stepMessages_keeps_recent {A} (messages : list A) :
  sliceLast 8 messages `suffix_of` stepMessages messages /\
  last (stepMessages messages) = last messages /\
  head (stepMessages messages) = head messages.
Proof.
  destruct (Nat.le_gt_cases (length messages) 8) as [Hs|Hl].
  - rewrite stepMessages_short by done. split; [| done].
    unfold sliceLast. apply suffix_drop.
  - rewrite stepMessages_long by done. split; [by exists (take 1 messages) |].
    split.
    + unfold sliceLast. rewrite !last_lookup.
      rewrite length_app, length_take, length_drop.
      rewrite lookup_app_r by (rewrite length_take; lia).
      rewrite lookup_drop, length_take. f_equal. lia.
    + destruct messages; [simpl in Hl; lia | done].
Qed.

(* ================================================================== *)
(** ** Schemas: what the checks amount to *)

Lemma SKILLS_PATH_depth (dir : string) :
  startsWith dir "/" = true -> 3 <= length (split "/" (SKILLS_PATH dir)).
Proof.
  intros Habs. destruct dir as [|c d]; [discriminate |].
  cbn [startsWith] in Habs. apply andb_true_iff in Habs as [Hc _].
  pose proof (split_length_app "/" (String c d) "/skills") as Hlen.
  rewrite split_length_cons in Hlen. rewrite Ascii.eqb_sym, Hc in Hlen.
  pose proof (split_length_pos "/" d).
  unfold SKILLS_PATH. change (length (split "/" "/skills")) with 2 in Hlen. lia.
Qed.

(** When the module lives in an absolute directory, the depth test of the
    [runScript] schema never rejects anything: the schema is the prefix
    test and the ["../"] test alone. *)
Theorem scriptPath_refine_depth_is_vacuous (dir path : string) :
  startsWith dir "/" = true ->
  scriptPath_refine dir path
  = startsWith (normalizeSeparators path) (SKILLS_PATH dir)
    && negb (includes (normalizeSeparators path) "../").
Proof.
  intros Habs. unfold scriptPath_refine. cbv zeta.
  destruct (startsWith (normalizeSeparators path) (SKILLS_PATH dir)) eqn:Hpre;
    [| done].
  apply startsWith_spec in Hpre as [rest ->].
  assert (Hdeep : (3 <=? length (split "/" (SKILLS_PATH dir +:+ rest)))%nat = true).
  { apply Nat.leb_le. pose proof (SKILLS_PATH_depth dir Habs).
    pose proof (split_length_app "/" (SKILLS_PATH dir) rest).
    pose proof (split_length_pos "/" rest). lia. }
  by rewrite Hdeep, andb_true_r.
Qed.

Lemma scriptPath_refine_depth_is_vacuous_witness :
  scriptPath_refine "/app" "/app/skills/run.sh"
  = startsWith (normalizeSeparators "/app/skills/run.sh") (SKILLS_PATH "/app")
    && negb (includes (normalizeSeparators "/app/skills/run.sh") "../").
Proof. apply scriptPath_refine_depth_is_vacuous. reflexivity. Defined.

Lemma includes_app (before sub rest : string) :
  includes (before +:+ sub +:+ rest) sub = true.
Proof. apply includes_spec. by exists before, rest. Qed.

(** A path with ["/.env"], ["/.git/"] or ["node_modules/"] anywhere in it
    is refused by the [readFile] schema, whatever comes before and after,
    and with either kind of separator. *)
Theorem filePath_refine_denies_anywhere :
  Forall (fun pattern => forall before rest : string,
            filePath_refine (before +:+ pattern +:+ rest) = false)
    ["/.env"; "\.env"; "/.git/"; "\.git\"; "/.git\"; "\.git/";
     "node_modules/"; "node_modules\"].
Proof.
  repeat constructor; intros before rest; unfold filePath_refine; cbv zeta;
    rewrite !normalizeSeparators_app;
    match goal with
    | |- context [normalizeSeparators ?a +:+ normalizeSeparators ?lit +:+ ?r] =>
        let v := eval vm_compute in (normalizeSeparators lit) in
        change (normalizeSeparators lit) with v
    end;
    rewrite includes_app; simpl; by rewrite ?andb_false_r.
Qed.

Lemma foldCase_backslash (d : ascii) : foldCase d = "\"%char -> d = "\"%char.
Proof.
  destruct d as [[] [] [] [] [] [] [] []]; vm_compute; congruence.
Qed.

Lemma eqb_ci_normalizeSeparators (b lit : string) :
  eqb_ci b lit = true ->
  eqb_ci (normalizeSeparators b) (normalizeSeparators lit) = true.
Proof.
  revert lit. induction b as [|c b IH]; intros [|d lit] Heq; try done.
  cbn [eqb_ci] in Heq. apply andb_true_iff in Heq as [Hcd Hrest].
  cbn [normalizeSeparators eqb_ci]. rewrite (IH _ Hrest), andb_true_r.
  apply Ascii.eqb_eq in Hcd.
  destruct (Ascii.eqb_spec c "\"%char) as [->|Hc].
  - symmetry in Hcd. apply foldCase_backslash in Hcd as ->. done.
  - destruct (Ascii.eqb_spec d "\"%char) as [->|Hd].
    + by apply foldCase_backslash in Hcd.
    + by apply Ascii.eqb_eq.
Qed.

Lemma matchesAtEnd_ci_app (a b lit : string) :
  eqb_ci b lit = true -> matchesAtEnd_ci (a +:+ b) lit = true.
Proof.
  intros Heq. induction a as [|c a IH].
  - change ("" +:+ b) with b. destruct b; cbn [matchesAtEnd_ci]; by rewrite Heq.
  - change (String c a +:+ b) with (String c (a +:+ b)).
    cbn [matchesAtEnd_ci]. rewrite IH. apply orb_true_r.
Qed.

(** A path that ends in a dot and one of the eight listed extensions is
    refused by the [readFile] schema whatever the stem and whatever the
    letter case of the extension. *)
Theorem filePath_refine_denies_extension (stem ext written : string) :
  In ext binaryExtensions ->
  eqb_ci written ext = true ->
  filePath_refine (stem +:+ "." +:+ written) = false.
Proof.
  intros Hin Hci. unfold filePath_refine. cbv zeta.
  assert (Hm : matchesBinaryExtension
                 (normalizeSeparators (stem +:+ "." +:+ written)) = true).
  { unfold matchesBinaryExtension. apply existsb_exists. exists ext.
    split; [exact Hin |].
    rewrite normalizeSeparators_app. apply matchesAtEnd_ci_app.
    assert (Hn : normalizeSeparators ("." +:+ ext) = "." +:+ ext).
    { simpl in Hin.
      destruct Hin as [<-|[<-|[<-|[<-|[<-|[<-|[<-|[<-|[]]]]]]]]]; reflexivity. }
    rewrite <- Hn. apply eqb_ci_normalizeSeparators.
    change (eqb_ci (String "." written) (String "." ext) = true).
    cbn [eqb_ci]. by rewrite Hci. }
  rewrite Hm. simpl. by rewrite andb_false_r.
Qed.

Lemma filePath_refine_denies_extension_witness :
  filePath_refine ("shots\2024\photo" +:+ "." +:+ "JpEg") = false.
Proof.
  apply (filePath_refine_denies_extension "shots\2024\photo" "jpeg" "JpEg").
  - simpl. tauto.
  - reflexivity.
Defined.

(* ================================================================== *)
(** ** Tools: the order and the reach of their effects *)

(** Refutes membership of an effect in a log that does not hold it. *)
Ltac not_in_log H :=
  repeat (apply elem_of_cons in H as [H|H]; [discriminate H |]);
  by apply elem_of_nil in H.

(** [runScript] touches nothing but the script path, in the order exists,
    executable test, spawn; it spawns at most once, with the arguments as
    given, and only after the file was found and the test passed. *)
Theorem runScript_effects (w : World) (scriptPath : string)
    (args : option (list string)) :
  snd (run (runScript_execute scriptPath args) w)
    `prefix_of` [FsExists scriptPath; ShellTestX scriptPath;
                 ProcSpawn (scriptPath :: default [] args) 10000] /\
  (ProcSpawn (scriptPath :: default [] args) 10000
     ∈ snd (run (runScript_execute scriptPath args) w)
   <-> file_exists w scriptPath = Returned true /\
       shell_test_x w scriptPath = Returned tt).
Proof.
  io_unfold. simpl.
  destruct (file_exists w scriptPath) as [[|]|e]; simpl.
  - destruct (shell_test_x w scriptPath) as [[]|e]; simpl.
    + destruct (spawn w (scriptPath :: default [] args) 10000) as [proc|e];
        [destruct (exitCodeNonZero (exitCode proc)) |]; simpl;
        (split; [done | split; [done | intros _; repeat constructor]]).
    + split; [by exists [ProcSpawn (scriptPath :: default [] args) 10000] |].
      split; [| by intros [_ ?]].
      intros Hin. not_in_log Hin.
  - split; [by eexists |]. split; [| by intros [? _]]. intros Hin. not_in_log Hin.
  - split; [by eexists |]. split; [| by intros [? _]]. intros Hin. not_in_log Hin.
Qed.

(** [readFile] touches nothing but the file path, in the order exists,
    size, text; it reads the text only of a file that was found and whose
    size is at most 1,000,000 bytes. *)
Theorem readFile_effects (w : World) (filePath : string) :
  snd (run (readFile_execute filePath) w)
    `prefix_of` [FsExists filePath; FsSize filePath; FsText filePath] /\
  (FsText filePath ∈ snd (run (readFile_execute filePath) w)
   <-> file_exists w filePath = Returned true /\
       (file_size w filePath <= 1000000)%Z).
Proof.
  io_unfold. simpl.
  destruct (file_exists w filePath) as [[|]|e]; simpl.
  - destruct (Z.ltb_spec 1000000 (file_size w filePath)); simpl.
    + split; [by exists [FsText filePath] |].
      split; [intros Hin; not_in_log Hin | intros [_ ?]; lia].
    + destruct (file_text w filePath); simpl;
        (split; [done | split; [intros _; split; [done | lia] | intros _; repeat constructor]]).
  - split; [by eexists |]. split; [intros Hin; not_in_log Hin | by intros [? _]].
  - split; [by eexists |]. split; [intros Hin; not_in_log Hin | by intros [? _]].
Qed.

(** *** The listing can be read back *)

Lemma includes_char_cons (sep c : ascii) (s : string) :
  includes (String c s) (String sep "")
  = Ascii.eqb sep c || includes s (String sep "").
Proof.
  cbn [includes startsWith].
  replace (startsWith s "") with true by (by destruct s).
  by rewrite andb_true_r.
Qed.

Lemma includes_char_app (sep : ascii) (a b : string) :
  includes (a +:+ b) (String sep "")
  = includes a (String sep "") || includes b (String sep "").
Proof.
  induction a as [|c a IH]; [reflexivity |].
  change (String c a +:+ b) with (String c (a +:+ b)).
  by rewrite !includes_char_cons, IH, orb_assoc.
Qed.

Lemma split_without_separator (sep : ascii) (s : string) :
  includes s (String sep "") = false -> split sep s = [s].
Proof.
  induction s as [|c s IH]; intros Hno; [reflexivity |].
  rewrite includes_char_cons in Hno. apply orb_false_iff in Hno as [Hc Hs].
  cbn [split]. rewrite Ascii.eqb_sym, Hc. by rewrite (IH Hs).
Qed.

Lemma split_at_separator (sep : ascii) (a b : string) :
  includes a (String sep "") = false ->
  split sep (a +:+ String sep b) = a :: split sep b.
Proof.
  induction a as [|c a IH]; intros Hno.
  - change ("" +:+ String sep b) with (String sep b).
    cbn [split]. by rewrite Ascii.eqb_refl.
  - rewrite includes_char_cons in Hno. apply orb_false_iff in Hno as [Hc Hs].
    change (String c a +:+ String sep b) with (String c (a +:+ String sep b)).
    cbn [split]. rewrite Ascii.eqb_sym, Hc. by rewrite (IH Hs).
Qed.

(** [split] undoes [join] on a non-empty list of separator-free strings. *)
Lemma split_join (sep : ascii) (l : list string) :
  l <> [] ->
  Forall (fun s => includes s (String sep "") = false) l ->
  split sep (join (String sep "") l) = l.
Proof.
  induction l as [|x l IH]; intros Hne Hall; [done |].
  apply Forall_cons in Hall as [Hx Hl].
  destruct l as [|y l]; [by apply split_without_separator |].
  change (join (String sep "") (x :: y :: l))
    with (x +:+ String sep (join (String sep "") (y :: l))).
  rewrite split_at_separator by done. by rewrite IH.
Qed.

(** The listing of a directory, cut at the line breaks, gives back its
    entries in the order [readdir] produced them, each directory marked by
    a trailing slash, provided no entry name holds a line break; an empty
    directory lists as the empty string. *)
Theorem listDirectory_listing (w : World) (dirPath : string) (entries : list Dirent) :
  readdir w dirPath = Returned entries ->
  Forall (fun entry => includes (name entry) (String "010" "") = false) entries ->
  exists output,
    run (listDirectory_execute dirPath) w = (Returned output, [FsReaddir dirPath]) /\
    (entries = [] -> output = "") /\
    (entries <> [] ->
       split "010" output
       = (fun entry => if isDirectory entry then name entry +:+ "/" else name entry)
           <$> entries).
Proof.
  intros Hdir Hnames. eexists. split; [| split].
  - io_unfold. simpl. rewrite Hdir. reflexivity.
  - by intros ->.
  - intros Hne. apply split_join.
    + by destruct entries.
    + apply Forall_fmap. eapply Forall_impl; [exact Hnames |].
      intros entry Hentry. simpl. destruct (isDirectory entry); [| done].
      by rewrite includes_char_app, Hentry.
Qed.

Lemma listDirectory_listing_witness :
  exists output,
    run (listDirectory_execute "/app/skills")
        (directoryWorld [ {| name := "demo"; isDirectory := true |};
                          {| name := "README.md"; isDirectory := false |} ])
    = (Returned output, [FsReaddir "/app/skills"]) /\
    split "010" output = ["demo/"; "README.md"].
Proof.
  destruct (listDirectory_listing
              (directoryWorld [ {| name := "demo"; isDirectory := true |};
                                {| name := "README.md"; isDirectory := false |} ])
              "/app/skills" _ eq_refl) as (output & Hrun & _ & Hsplit).
  - repeat constructor.
  - exists output. split; [exact Hrun |]. apply Hsplit. discriminate.
Defined.

(* ================================================================== *)
(** ** Tool previews *)

Lemma append_length (a b : string) :
  String.length (a +:+ b) = String.length a + String.length b.
Proof.
  induction a as [|c a IH]; [reflexivity |].
  change (String c a +:+ b) with (String c (a +:+ b)). simpl. by rewrite IH.
Qed.

Lemma sliceTo_length (n : nat) (s : string) :
  String.length (sliceTo n s) = Nat.min n (String.length s).
Proof.
  revert n. induction s as [|c s IH]; intros [|n]; simpl; try done.
  by rewrite IH.
Qed.

Lemma sliceTo_app (t u : string) : sliceTo (String.length t) (t +:+ u) = t.
Proof.
  induction t as [|c t IH].
  - change ("" +:+ u) with u. by destruct u.
  - change (String c t +:+ u) with (String c (t +:+ u)). simpl. by rewrite IH.
Qed.

Lemma replaceWhiteSpaceRuns_singleSpaced (inRun : bool) (s : string) :
  singleSpaced inRun (replaceWhiteSpaceRuns inRun s) = true.
Proof.
  revert inRun. induction s as [|c s IH]; intros inRun; [done |].
  cbn [replaceWhiteSpaceRuns]. destruct (isWhiteSpace c) eqn:Hc.
  - destruct inRun; [apply IH |].
    cbn [singleSpaced]. change (isWhiteSpace " ") with true. cbn. apply IH.
  - cbn [singleSpaced]. rewrite Hc. apply IH.
Qed.

Lemma singleSpaced_fixed (inRun : bool) (s : string) :
  singleSpaced inRun s = true -> replaceWhiteSpaceRuns inRun s = s.
Proof.
  revert inRun. induction s as [|c s IH]; intros inRun Hs; [done |].
  cbn [singleSpaced replaceWhiteSpaceRuns] in *. destruct (isWhiteSpace c).
  - apply andb_true_iff in Hs as [Hs Hrest]. apply andb_true_iff in Hs as [Hrun Hc].
    destruct inRun; [done |]. apply Ascii.eqb_eq in Hc as ->.
    by rewrite (IH true).
  - by rewrite (IH false).
Qed.

Lemma singleSpaced_sliceTo (inRun : bool) (n : nat) (s : string) :
  singleSpaced inRun s = true -> singleSpaced inRun (sliceTo n s) = true.
Proof.
  revert inRun n. induction s as [|c s IH]; intros inRun [|n] Hs; try done.
  cbn [singleSpaced sliceTo] in *. destruct (isWhiteSpace c).
  - apply andb_true_iff in Hs as [Hs Hrest]. rewrite Hs. by apply IH.
  - by apply IH.
Qed.

Lemma singleSpaced_ellipsis (inRun : bool) (s : string) :
  singleSpaced inRun s = true -> singleSpaced inRun (s +:+ "...") = true.
Proof.
  revert inRun. induction s as [|c s IH]; intros inRun Hs.
  - by destruct inRun.
  - change (String c s +:+ "...") with (String c (s +:+ "...")).
    cbn [singleSpaced] in *. destruct (isWhiteSpace c).
    + apply andb_true_iff in Hs as [Hs Hrest]. rewrite Hs. by apply IH.
    + by apply IH.
Qed.

Lemma singleSpaced_chars (inRun : bool) (s : string) (c : ascii) :
  singleSpaced inRun s = true ->
  In c (list_ascii_of_string s) -> isWhiteSpace c = true -> c = " "%char.
Proof.
  revert inRun. induction s as [|d s IH]; intros inRun Hs Hin Hc; [done |].
  cbn [singleSpaced] in Hs. destruct Hin as [->|Hin].
  - rewrite Hc in Hs. apply andb_true_iff in Hs as [Hs _].
    apply andb_true_iff in Hs as [_ Hs]. by apply Ascii.eqb_eq in Hs.
  - destruct (isWhiteSpace d).
    + apply andb_true_iff in Hs as [_ Hs]. by apply (IH true).
    + by apply (IH false).
Qed.

Lemma compact_singleSpaced {T} (JSON_stringify : T -> string) (obj : string + T)
    (maxLen : option nat) :
  singleSpaced false (compact JSON_stringify obj maxLen) = true.
Proof.
  unfold compact. cbv zeta.
  destruct (_ <? _)%nat.
  - apply singleSpaced_ellipsis, singleSpaced_sliceTo,
      replaceWhiteSpaceRuns_singleSpaced.
  - apply replaceWhiteSpaceRuns_singleSpaced.
Qed.

(** A preview is never longer than [maxLen] plus the three dots of the
    ellipsis, whatever the value previewed. *)
Theorem compact_length {T} (JSON_stringify : T -> string) (obj : string + T)
    (maxLen : option nat) :
  String.length (compact JSON_stringify obj maxLen) <= default 80 maxLen + 3.
Proof.
  unfold compact. cbv zeta.
  destruct (Nat.ltb_spec (default 80 maxLen)
              (String.length (replaceWhiteSpaceRuns false
                 match obj with inl s => s | inr o => JSON_stringify o end))).
  - rewrite append_length, sliceTo_length. simpl. lia.
  - lia.
Qed.

Lemma includes_char_In (c : ascii) (s : string) :
  includes s (String c "") = true -> In c (list_ascii_of_string s).
Proof.
  induction s as [|d s IH]; [done |].
  rewrite includes_char_cons. intros [Hc|Hs]%orb_true_iff.
  - apply Ascii.eqb_eq in Hc as ->. by left.
  - right. by apply IH.
Qed.

Lemma singleSpaced_no_double_space (inRun : bool) (s : string) :
  singleSpaced inRun s = true -> includes s "  " = false.
Proof.
  revert inRun. induction s as [|d s IH]; intros inRun Hs; [done |].
  cbn [includes]. apply orb_false_iff. split.
  - cbn [startsWith singleSpaced] in *.
    destruct (Ascii.eqb_spec " " d) as [<-|]; [| done].
    change (isWhiteSpace " ") with true in Hs. cbn iota in Hs.
    apply andb_true_iff in Hs as [_ Hs].
    destruct s as [|e s]; [done |]. cbn [startsWith singleSpaced] in *.
    destruct (Ascii.eqb_spec " " e) as [<-|]; [| done].
    change (isWhiteSpace " ") with true in Hs. done.
  - cbn [singleSpaced] in Hs. destruct (isWhiteSpace d).
    + apply andb_true_iff in Hs as [_ Hs]. by apply (IH true).
    + by apply (IH false).
Qed.

(** A preview is a single line: it holds no line break, no carriage
    return, no tab and no two spaces in a row; the only white space left
    in it are single spaces. *)
Theorem compact_single_line {T} (JSON_stringify : T -> string) (obj : string + T)
    (maxLen : option nat) :
  includes (compact JSON_stringify obj maxLen) (String "010" "") = false /\
  includes (compact JSON_stringify obj maxLen) (String "013" "") = false /\
  includes (compact JSON_stringify obj maxLen) (String "009" "") = false /\
  includes (compact JSON_stringify obj maxLen) "  " = false /\
  singleSpaced false (compact JSON_stringify obj maxLen) = true.
Proof.
  pose proof (compact_singleSpaced JSON_stringify obj maxLen) as Hs.
  assert (Hno : forall c, isWhiteSpace c = true -> c <> " "%char ->
            includes (compact JSON_stringify obj maxLen) (String c "") = false).
  { intros c Hc Hne.
    destruct (includes (compact JSON_stringify obj maxLen) (String c "")) eqn:Hin;
      [| done].
    apply includes_char_In in Hin. destruct Hne.
    by apply (singleSpaced_chars false _ c Hs). }
  repeat split; [by apply Hno | by apply Hno | by apply Hno | | exact Hs].
  by apply (singleSpaced_no_double_space false).
Qed.

(** Previewing a preview changes nothing: a text that was cut stays cut at
    the same place, with one ellipsis. *)
Theorem compact_idempotent {T} (JSON_stringify : T -> string) (obj : string + T)
    (maxLen : option nat) :
  compact JSON_stringify (inl (compact JSON_stringify obj maxLen)) maxLen
  = compact JSON_stringify obj maxLen.
Proof.
  pose proof (compact_singleSpaced JSON_stringify obj maxLen) as Hs.
  unfold compact at 1. cbv zeta. rewrite (singleSpaced_fixed _ _ Hs).
  unfold compact. cbv zeta.
  set (oneLine := replaceWhiteSpaceRuns false
                    match obj with inl s => s | inr o => JSON_stringify o end).
  destruct (Nat.ltb_spec (default 80 maxLen) (String.length oneLine)) as [Hlong|Hshort].
  - assert (Hcut : String.length (sliceTo (default 80 maxLen) oneLine)
                   = default 80 maxLen).
    { rewrite sliceTo_length. lia. }
    destruct (Nat.ltb_spec (default 80 maxLen)
                (String.length (sliceTo (default 80 maxLen) oneLine +:+ "...")))
      as [_|Hle].
    + rewrite <- Hcut at 1. by rewrite sliceTo_app.
    + rewrite append_length, Hcut in Hle. simpl in Hle. lia.
  - destruct (Nat.ltb_spec (default 80 maxLen) (String.length oneLine)); [lia | done].
Qed.

(* ================================================================== *)
(** ** Chat loop: what the conversation state records *)

Lemma trimEnd_empty (s : string) : trimEnd s = "" <-> allWhiteSpace s = true.
Proof.
  induction s as [|c s IH]; [done |].
  cbn [trimEnd allWhiteSpace]. rewrite andb_true_iff, <- IH.
  destruct (trimEnd s); destruct (isWhiteSpace c); split; try done.
  - by intros [? _].
  - by intros [_ ?].
  - by intros [_ ?].
Qed.

Lemma allWhiteSpace_trimStart (s : string) :
  allWhiteSpace (trimStart s) = allWhiteSpace s.
Proof.
  induction s as [|c s IH]; [done |].
  cbn [trimStart]. destruct (isWhiteSpace c) eqn:Hc.
  - rewrite IH. cbn [allWhiteSpace]. by rewrite Hc.
  - done.
Qed.

(** [!line.trim()] holds exactly of the lines made of white space only. *)
Lemma trim_empty (line : string) :
  String.eqb (trim line) "" = allWhiteSpace line.
Proof.
  unfold trim. rewrite <- (allWhiteSpace_trimStart line).
  destruct (allWhiteSpace (trimStart line)) eqn:Hw.
  - apply trimEnd_empty in Hw. by rewrite Hw.
  - apply String.eqb_neq. intros Hempty. apply trimEnd_empty in Hempty. congruence.
Qed.

(** Lines made of white space only, the empty line among them, start no
    turn and leave the session as it is: the loop behaves as if they had
    not been typed. *)
Theorem chatLoop_skips_blank_lines (model : list Message -> outcome StepResult)
    (lines : list string) (s : Session) :
  chatLoop model lines s
  = chatLoop model (filter (fun line => allWhiteSpace line = false) lines) s.
Proof.
  revert s. induction lines as [|line rest IH]; intros s; [done |].
  rewrite filter_cons. cbn [chatLoop]. rewrite trim_empty.
  destruct (allWhiteSpace line) eqn:Hblank.
  - rewrite decide_False by done. apply IH.
  - rewrite decide_True by done. cbn [chatLoop]. rewrite trim_empty, Hblank.
    destruct (streamAgentResponse model line (conversationHistory s))
      as [h [[]|e]]; [apply IH | done].
Qed.

(** The conversation state only grows: whatever is typed and answered,
    the history the loop started from stays at the front, unchanged. *)
Theorem chatLoop_history_grows (model : list Message -> outcome StepResult)
    (lines : list string) (s : Session) :
  conversationHistory s `prefix_of` conversationHistory (chatLoop model lines s).
Proof.
  revert s. induction lines as [|line rest IH]; intros s; [done |].
  cbn [chatLoop]. destruct (String.eqb (trim line) ""); [apply IH |].
  destruct (streamAgentResponse_shape model line (conversationHistory s))
    as [[e Hr]|[text Hr]]; rewrite Hr.
  - by apply prefix_app_r.
  - etrans; [| apply IH]. by apply prefix_app_r.
Qed.

(** As long as no turn faults, the user messages of the conversation
    state are the non-blank lines the operator typed, untrimmed and in
    order, after those the session started with. *)
Theorem chatLoop_records_lines (model : list Message -> outcome StepResult)
    (lines : list string) (s : Session) :
  status (chatLoop model lines s) = awaiting_input ->
  userLines (conversationHistory (chatLoop model lines s))
  = userLines (conversationHistory s)
    ++ filter (fun line => allWhiteSpace line = false) lines.
Proof.
  revert s. induction lines as [|line rest IH]; intros s Hend.
  - by rewrite app_nil_r.
  - rewrite filter_cons. cbn [chatLoop] in *. rewrite trim_empty in *.
    destruct (allWhiteSpace line) eqn:Hblank.
    + rewrite decide_False by done. by apply IH.
    + rewrite decide_True by done.
      destruct (streamAgentResponse_shape model line (conversationHistory s))
        as [[e Hr]|[text Hr]]; rewrite Hr in *; [done |].
      rewrite IH by done. cbn [conversationHistory].
      unfold userLines. rewrite List.filter_app, fmap_app. simpl.
      by rewrite <- app_assoc.
Qed.

Lemma chatLoop_records_lines_witness :
  userLines (conversationHistory
               (chatLoop (echoModel "hi") ["  one "; ""; "two"] initialSession))
  = [] ++ ["  one "; "two"].
Proof.
  apply (chatLoop_records_lines (echoModel "hi") ["  one "; ""; "two"] initialSession).
  reflexivity.
Defined.

Lemma chatLoop_counts_turns_witness :
  completedTurns (chatLoop (echoModel "hi") ["one"; " "; "two"] initialSession)
  = completedTurns initialSession
    + length (filter (fun line => String.eqb (trim line) "" = false) ["one"; " "; "two"]).
Proof.
  apply (chatLoop_counts_turns (echoModel "hi") ["one"; " "; "two"] initialSession);
    reflexivity.
Defined.

(* ================================================================== *)
(** ** Model provider configuration *)

Lemma orElse_nonempty (value : option string) (fallback : string) :
  fallback <> "" -> orElse value fallback <> "".
Proof.
  intros Hf. unfold orElse. destruct value as [s|]; [| done].
  destruct (String.eqb_spec s ""); done.
Qed.

(** [getModel] fails exactly when [MODEL_PROVIDER] is set to a non-empty
    string other than ["anthropic"] and ["ollama"], and the error names
    that string; unset or empty, the provider is ["anthropic"]. *)
Theorem getModel_fails_iff (env : string -> option string) :
  ((exists e, getModel env = Thrown e) <->
   (exists p, env "MODEL_PROVIDER" = Some p /\
              p <> "" /\ p <> "anthropic" /\ p <> "ollama")) /\
  (forall e, getModel env = Thrown e ->
     exists p, env "MODEL_PROVIDER" = Some p /\
               message e = "Unknown model provider: " +:+ p) /\
  (env "MODEL_PROVIDER" = None \/ env "MODEL_PROVIDER" = Some "" ->
     getModel env = Returned (anthropic (MODEL_NAME env))).
Proof.
  unfold getModel, MODEL_PROVIDER, orElse.
  destruct (env "MODEL_PROVIDER") as [p|] eqn:Hp.
  - destruct (String.eqb_spec p "") as [->|Hne]; simpl.
    + split; [| split]; [| done | done].
      split; [by intros [e ?] | intros (q & Hq & Hq' & _); congruence].
    + destruct (String.eqb_spec p "anthropic") as [->|Ha].
      { split; [| split]; [| done | by intros [?|?]].
        split; [by intros [e ?] | intros (q & Hq & _ & Hq' & _); congruence]. }
      destruct (String.eqb_spec p "ollama") as [->|Ho].
      { split; [| split]; [| done | by intros [?|?]].
        split; [by intros [e ?] | intros (q & Hq & _ & _ & Hq'); congruence]. }
      split; [| split].
      * split; [intros _; by exists p | intros _; by eexists].
      * intros e [= <-]. by exists p.
      * intros [?|[= ->]]; done.
  - simpl. split; [| split]; [| done | done].
    split; [by intros [e ?] | by intros (q & Hq & _)].
Qed.

Lemma getModel_fails_iff_witness :
  getModel (fun key => if String.eqb key "MODEL_NAME" then Some "llama3" else None)
  = Returned (anthropic "llama3").
Proof.
  apply (proj2 (proj2 (getModel_fails_iff
           (fun key => if String.eqb key "MODEL_NAME" then Some "llama3" else None)))).
  by left.
Defined.

(** A model that [getModel] returns has a non-empty identifier: the value
    of [MODEL_NAME] when that is set and not empty, otherwise the default
    of the backend chosen. *)
Theorem getModel_model_id (env : string -> option string) (m : LanguageModel) :
  getModel env = Returned m ->
  modelId m <> "" /\
  modelId m = orElse (env "MODEL_NAME")
                (match m with
                 | anthropic _ => "claude-haiku-4-5"
                 | ollama _ => "ministral-3:8b"
                 end).
Proof.
  unfold getModel, MODEL_NAME.
  destruct (String.eqb_spec (MODEL_PROVIDER env) "anthropic") as [Ha|Ha].
  - intros [= <-]. simpl. split; [by apply orElse_nonempty | done].
  - destruct (String.eqb_spec (MODEL_PROVIDER env) "ollama") as [Ho|Ho]; [| done].
    intros [= <-]. simpl. split; [by apply orElse_nonempty | done].
Qed.

Lemma getModel_model_id_witness :
  modelId (ollama "ministral-3:8b") <> "" /\
  modelId (ollama "ministral-3:8b")
  = orElse ((fun key => if String.eqb key "MODEL_PROVIDER" then Some "ollama"
                        else Some "") "MODEL_NAME") "ministral-3:8b".
Proof.
  apply (getModel_model_id
           (fun key => if String.eqb key "MODEL_PROVIDER" then Some "ollama" else Some "")
           (ollama "ministral-3:8b")).
  reflexivity.
Defined.

(* ================================================================== *)
(** ** System prompt: which documents are listed *)

Lemma split_length_one (sep : ascii) (s : string) :
  length (split sep s) = 1 <-> includes s (String sep "") = false.
Proof.
  induction s as [|c s IH]; [done |].
  rewrite split_length_cons, includes_char_cons, Ascii.eqb_sym.
  destruct (Ascii.eqb sep c); simpl; [| exact IH].
  pose proof (split_length_pos sep s). split; [lia | done].
Qed.

Lemma split_length_two (sep : ascii) (s : string) :
  length (split sep s) = 2 <->
  exists a b, s = a +:+ String sep b /\
              includes a (String sep "") = false /\
              includes b (String sep "") = false.
Proof.
  split.
  - induction s as [|c s IH]; [done |].
    rewrite split_length_cons. destruct (Ascii.eqb_spec c sep) as [->|Hc].
    + intros [= Hlen]. apply split_length_one in Hlen. by exists "", s.
    + intros Hlen. destruct (IH Hlen) as (a & b & -> & Ha & Hb).
      exists (String c a), b. split; [done |]. split; [| done].
      rewrite includes_char_cons, Ha, orb_false_r.
      by apply Ascii.eqb_neq.
  - intros (a & b & -> & Ha & Hb).
    rewrite split_at_separator by done. simpl.
    by rewrite (proj2 (split_length_one sep b)).
Qed.

Lemma endsWith_spec (s suffix : string) :
  endsWith s suffix = true <-> exists before, s = before +:+ suffix.
Proof.
  induction s as [|c s IH]; cbn [endsWith]; rewrite orb_true_iff, String.eqb_eq.
  - split.
    + intros [<-|?]; [by exists "" | done].
    + intros [before Heq]. left. destruct before; [done | discriminate].
  - rewrite IH. split.
    + intros [<-|[before ->]]; [by exists "" | by exists (String c before)].
    + intros [[|d before] Heq]; [by left |].
      change (String d before +:+ suffix) with (String d (before +:+ suffix)) in Heq.
      injection Heq as -> ->. right. by exists before.
Qed.

(** A suffix without separator is found in what follows the last
    separator. *)
Lemma endsWith_after_separator (sep : ascii) (a b suffix : string) :
  includes suffix (String sep "") = false ->
  endsWith (a +:+ String sep b) suffix = endsWith b suffix.
Proof.
  intros Hsuffix.
  assert (Hne : forall t, includes t (String sep "") = true ->
                          String.eqb t suffix = false).
  { intros t Ht. apply String.eqb_neq. intros ->. congruence. }
  induction a as [|c a IH].
  - change ("" +:+ String sep b) with (String sep b). cbn [endsWith].
    rewrite Hne; [done |]. by rewrite includes_char_cons, Ascii.eqb_refl.
  - change (String c a +:+ String sep b) with (String c (a +:+ String sep b)).
    cbn [endsWith]. rewrite IH, Hne; [done |].
    rewrite includes_char_cons, includes_char_app, includes_char_cons,
      Ascii.eqb_refl. by rewrite !orb_true_r.
Qed.

(** The documents listed in the prompt are exactly the files of the form
    [<folder>/<file>] with one separator, whose file name ends in
    ["SKILL.md"]: nothing at the top of the skills directory, nothing
    nested deeper, and any file name with that ending. *)
Theorem isSkillFile_one_level (path : string) :
  isSkillFile path = true <->
  exists folder file,
    path = folder +:+ "/" +:+ file /\
    includes folder "/" = false /\
    includes file "/" = false /\
    endsWith file "SKILL.md" = true.
Proof.
  unfold isSkillFile. rewrite andb_true_iff, Nat.eqb_eq, split_length_two.
  split.
  - intros [Hend (folder & file & -> & Hfolder & Hfile)].
    exists folder, file. repeat split; try done.
    by rewrite endsWith_after_separator in Hend.
  - intros (folder & file & -> & Hfolder & Hfile & Hend).
    split; [| by exists folder, file].
    change (folder +:+ "/" +:+ file) with (folder +:+ String "/" file).
    by rewrite endsWith_after_separator.
Qed.

Example isSkillFile_samples :
  List.filter isSkillFile
    ["SKILL.md"; "pdf"; "pdf/SKILL.md"; "pdf/scripts"; "pdf/scripts/SKILL.md";
     "pdf/OLD-SKILL.md"; "pdf/skill.md"; "web/SKILL.md"]
  = ["pdf/SKILL.md"; "pdf/OLD-SKILL.md"; "web/SKILL.md"].
Proof. reflexivity. Qed.

(** ** System prompt: how it is put together *)

Section PromptProperties.
Variable dir : string.
Variable disk : SkillsDisk.
Variable matter : string -> Skill.SkillPreview.

Lemma append_cons (c : ascii) (a b : string) : String c a +:+ b = String c (a +:+ b).
Proof. reflexivity. Qed.

Lemma join_nonempty (sep x : string) (l : list string) :
  x <> "" -> String.eqb (join sep (x :: l)) "" = false.
Proof.
  intros Hx. destruct x as [|c x]; [done |].
  destruct l; cbn [join]; [done |]. by rewrite append_cons.
Qed.

Lemma skillLines_all_read (texts : string -> string) (kept : list string) :
  (forall p, In p kept -> skill_text disk (skillFile dir p) = Returned (texts p)) ->
  skillLines dir disk matter kept
  = (Returned ((fun p => skillBullet dir matter p (texts p)) <$> kept), skillFile dir <$> kept).
Proof.
  induction kept as [|p kept IH]; intros Hread; [done |].
  cbn [skillLines]. cbv zeta. change (SKILLS_PATH dir +:+ "/" +:+ p) with (skillFile dir p).
  rewrite (Hread p) by (by left).
  rewrite IH by (intros q Hq; apply Hread; by right). done.
Qed.

Lemma skillLines_fault (texts : string -> string) (before after : list string)
    (p : string) (e : Error) :
  (forall q, In q before -> skill_text disk (skillFile dir q) = Returned (texts q)) ->
  skill_text disk (skillFile dir p) = Thrown e ->
  skillLines dir disk matter (before ++ p :: after)
  = (Thrown e, skillFile dir <$> (before ++ [p])).
Proof.
  induction before as [|q before IH]; intros Hread Hfault.
  - cbn [app skillLines]. cbv zeta. change (SKILLS_PATH dir +:+ "/" +:+ p) with (skillFile dir p). by rewrite Hfault.
  - cbn [app skillLines]. cbv zeta. change (SKILLS_PATH dir +:+ "/" +:+ q) with (skillFile dir q).
    rewrite (Hread q) by (by left).
    rewrite IH by (try done; intros r Hr; apply Hread; by right). done.
Qed.

(** When every listed skill document can be read, the prompt is the fixed
    head, then one skillBullet dir matter per listed document in directory order, joined
    by line breaks, or the sentence "No skills available currently." when
    none is listed, then the fixed tail; the listed documents are the only
    files opened. *)
Theorem buildPrompt_lists_skills (paths : list string) (texts : string -> string) :
  readdir_recursive disk (SKILLS_PATH dir) = Returned paths ->
  (forall p, In p (List.filter isSkillFile paths) ->
     skill_text disk (skillFile dir p) = Returned (texts p)) ->
  buildPrompt dir disk matter
  = (Returned (promptHead
                 +:+ match List.filter isSkillFile paths with
                     | [] => "No skills available currently."
                     | kept => join (String "010" "")
                                 ((fun p => skillBullet dir matter p (texts p)) <$> kept)
                     end
                 +:+ promptTail),
     skillFile dir <$> List.filter isSkillFile paths).
Proof.
  intros Hdir Hread. unfold buildPrompt, buildSkillsListMd. rewrite Hdir. cbv zeta.
  rewrite (skillLines_all_read texts) by done.
  destruct (List.filter isSkillFile paths) as [|p kept]; [done |].
  cbn [fmap list_fmap length Nat.eqb].
  by rewrite join_nonempty.
Qed.

(** A listed skill document that cannot be read makes the prompt fail with
    that very error, after the documents listed before it were opened and
    without opening any listed after it. *)
Theorem buildPrompt_fails_with_document (paths before after : list string)
    (p : string) (texts : string -> string) (e : Error) :
  readdir_recursive disk (SKILLS_PATH dir) = Returned paths ->
  List.filter isSkillFile paths = before ++ p :: after ->
  (forall q, In q before -> skill_text disk (skillFile dir q) = Returned (texts q)) ->
  skill_text disk (skillFile dir p) = Thrown e ->
  buildPrompt dir disk matter = (Thrown e, skillFile dir <$> (before ++ [p])).
Proof.
  intros Hdir Hkept Hread Hfault.
  unfold buildPrompt, buildSkillsListMd. rewrite Hdir. cbv zeta. rewrite Hkept.
  by rewrite (skillLines_fault texts before after p e Hread Hfault).
Qed.

End PromptProperties.

Lemma buildPrompt_lists_skills_witness :
  snd (buildPrompt "/app" (sampleDisk false) sampleMatter)
  = ["/app/skills/pdf/SKILL.md"; "/app/skills/web/SKILL.md"].
Proof.
  rewrite (buildPrompt_lists_skills "/app" (sampleDisk false) sampleMatter
             ["SKILL.md"; "pdf"; "pdf/SKILL.md"; "pdf/scripts";
              "pdf/scripts/extract.sh"; "web"; "web/SKILL.md"; "web/notes.md"]
             (skillFile "/app") eq_refl).
  - reflexivity.
  - intros p Hp. reflexivity.
Defined.

Lemma buildPrompt_fails_with_document_witness :
  buildPrompt "/app" (sampleDisk true) sampleMatter
  = (Thrown EACCES, ["/app/skills/pdf/SKILL.md"; "/app/skills/web/SKILL.md"]).
Proof.
  apply (buildPrompt_fails_with_document "/app" (sampleDisk true) sampleMatter
           ["SKILL.md"; "pdf"; "pdf/SKILL.md"; "pdf/scripts";
            "pdf/scripts/extract.sh"; "web"; "web/SKILL.md"; "web/notes.md"]
           ["pdf/SKILL.md"] [] "web/SKILL.md" (skillFile "/app") EACCES
           eq_refl eq_refl).
  - intros q [<-|[]]. reflexivity.
  - reflexivity.
Defined.

(* ================================================================== *)
(** ** Schema of [runScript]: where an upward step can still sit *)

Lemma includes_cons_r (c : ascii) (s sub : string) :
  includes s sub = true -> includes (String c s) sub = true.
Proof. intros Hs. cbn [includes]. rewrite Hs. apply orb_true_r. Qed.

(** The first segment of a string with several segments, followed by the
    separator, starts the string. *)
Lemma split_head_prefix (sep : ascii) (s y z : string) (ys : list string) :
  split sep s = y :: z :: ys -> startsWith s (y +:+ String sep "") = true.
Proof.
  revert y z ys. induction s as [|c s IH]; intros y z ys Hsplit; [done |].
  cbn [split] in Hsplit. destruct (Ascii.eqb_spec c sep) as [->|Hc].
  - injection Hsplit as <- _. change ("" +:+ String sep "") with (String sep "").
    cbn [startsWith]. rewrite Ascii.eqb_refl. by destruct s.
  - destruct (split sep s) as [|y' ys'] eqn:Hs; [done |].
    injection Hsplit as <- ->. rewrite append_cons. cbn [startsWith].
    by rewrite Ascii.eqb_refl, (IH y' z ys).
Qed.

(** A segment that is not the last one is followed by the separator. *)
Lemma split_segment_includes (sep : ascii) (s x : string) (i : nat) :
  split sep s !! i = Some x -> S i < length (split sep s) ->
  includes s (x +:+ String sep "") = true.
Proof.
  revert i x. induction s as [|c s IH]; intros i x Hi Hlen; [simpl in Hlen; lia |].
  rewrite split_length_cons in Hlen. cbn [split] in Hi.
  destruct (Ascii.eqb_spec c sep) as [->|Hc].
  - destruct i as [|i].
    + injection Hi as <-. change ("" +:+ String sep "") with (String sep "").
      by rewrite includes_char_cons, Ascii.eqb_refl.
    + apply includes_cons_r, (IH i); [done | lia].
  - destruct (split sep s) as [|y ys] eqn:Hs; [simpl in Hlen; lia |].
    destruct i as [|i].
    + injection Hi as <-. destruct ys as [|z ys]; [simpl in Hlen; lia |].
      cbn [includes]. rewrite append_cons. cbn [startsWith].
      by rewrite Ascii.eqb_refl, (split_head_prefix sep s y z ys).
    + apply includes_cons_r, (IH (S i)); [done | done].
Qed.

(** In a script path that passes the schema an upward-traversal segment
    [..] can only be the very last segment: the schema refuses every path
    that goes up and then down again. *)
Theorem scriptPath_refine_traversal_only_last (dir path : string) (i : nat) :
  scriptPath_refine dir path = true ->
  split "/" (normalizeSeparators path) !! i = Some ".." ->
  S i = length (split "/" (normalizeSeparators path)).
Proof.
  unfold scriptPath_refine. cbv zeta.
  intros [[_ Hup]%andb_true_iff _]%andb_true_iff Hseg.
  apply negb_true_iff in Hup.
  pose proof (lookup_lt_Some _ _ _ Hseg) as Hlt.
  destruct (decide (S i = length (split "/" (normalizeSeparators path))))
    as [|Hne]; [done |].
  assert (Hin : includes (normalizeSeparators path) "../" = true).
  { apply (split_segment_includes "/" _ ".." i Hseg). lia. }
  congruence.
Qed.

Lemma scriptPath_refine_traversal_only_last_witness :
  5 = length (split "/" (normalizeSeparators "/app/skills/demo\..")).
Proof.
  apply (scriptPath_refine_traversal_only_last "/app" "/app/skills/demo\.." 4);
    reflexivity.
Defined.

(* ================================================================== *)
(** ** Witnesses of earlier facts *)

Lemma runScript_spawn_timeout_witness :
  fst (run (runScript_execute "/app/skills/demo/scripts/slow.sh" None)
         (scriptWorld {| stdout := "half"; stderr := "killed"; exitCode := None |}))
  = Returned "Script failed with exit code null: killed".
Proof.
  apply (proj2 (runScript_spawn_timeout
                  (scriptWorld {| stdout := "half"; stderr := "killed"; exitCode := None |})
                  "/app/skills/demo/scripts/slow.sh" None)
           {| stdout := "half"; stderr := "killed"; exitCode := None |});
    reflexivity.
Defined.

(* ================================================================== *)
(** ** The assistant message *)

(** The text that [streamAgentResponse] stores for a turn is the fragments
    of the token channel glued together in the order received, with
    nothing in between, however the text was cut into fragments. *)
Theorem accumulate_is_join (parts : list string) :
  accumulate parts = join "" parts.
Proof.
  induction parts as [|p parts IH]; [done |].
  unfold accumulate. cbn [fold_left]. change ("" +:+ p) with p.
  rewrite accumulate_from, IH.
  destruct parts as [|q parts]; [apply append_empty_r | done].
Qed.
